(** * olgm/herald/Feature: the Feature herald (bridge) of ol3-google-maps

    A shallow embedding of [src/olgm/herald/feature.js].  The herald
    synchronises one OpenLayers vector feature with one Google Maps
    data feature, plus an optional label overlay and an optional icon
    marker overlay.

    The JavaScript object graph is modelled as one [World]:
    - [this]  : the fields of the herald instance ([this.visible_], ...);
    - [ol]    : the OpenLayers side (the source feature, its geometry
                objects, and the table of event listeners);
    - [gm]    : the Google Maps side (the data layer [this.data_], the data
                features, the overlays and which of them sit on the map);
    - [next_id] : the allocator, which gives every new object its identity.

    Methods are computations in a state-and-exception monad [M] that also
    records the calls made on the Google Maps objects.  A thrown exception
    keeps the state reached so far, as in JavaScript. *)

From Stdlib Require Import ZArith List Bool Lia.
From stdpp Require Import base option list gmap.

#[local] Set Warnings "-clear-no-such-hyp".

(** ** Object identities *)

Definition GeomId := nat.     (* an ol.geom.Geometry instance *)
Definition MirrorId := nat.   (* a google.maps.Data.Feature instance *)
Definition OverlayId := nat.  (* an olgm.gm.MapLabel or olgm.gm.MapIcon instance *)
Definition Key := nat.        (* an ol.EventsKey, as returned by [on] *)

(** ** The source feature's style, as the herald reads it *)

(** [style.getImage()] is an [ol.style.Icon], some other image style (a
    circle, a regular shape) or null. *)
Inductive ImageStyle (Icon Other : Type) :=
| IconImage (i : Icon)
| OtherImage (o : Other).
Arguments IconImage {Icon Other} i.
Arguments OtherImage {Icon Other} o.

Record Style (Icon Other Text : Type) := mkStyle {
  getZIndex : option Z;                          (* number | undefined *)
  getImage : option (ImageStyle Icon Other);     (* ol.style.Image | null *)
  getText : option Text                          (* ol.style.Text | null *)
}.
Arguments mkStyle {Icon Other Text} _ _ _.
Arguments getZIndex {Icon Other Text} _.
Arguments getImage {Icon Other Text} _.
Arguments getText {Icon Other Text} _.

(** [olgmx.gm.MapIconOptions]; only [useCanvas] is read by the herald. *)
Record MapIconOptions := mkMapIconOptions {
  useCanvas : option bool                        (* boolean | undefined *)
}.

(** ** Outcomes of a method call

    A call returns normally or throws; either way it leaves a state behind
    and has made some calls on other objects on the way. *)

Inductive Error :=
| PreconditionError   (* raised by a failed [assert] *)
| TypeError           (* a property read or a method call on null or undefined *)
| OtherError.         (* any other exception *)

Inductive Result (A : Type) :=
| Ok (a : A)
| Throw (e : Error).
Arguments Ok {A} a.
Arguments Throw {A} e.

Record Outcome (W E A : Type) := mkOut {
  result : Result A;
  final : W;
  emitted : list E
}.
Arguments mkOut {W E A} _ _ _.
Arguments result {W E A} _.
Arguments final {W E A} _.
Arguments emitted {W E A} _.

(** ** References

    What [feature.getGeometry()] yields: undefined when no geometry was ever
    attached, null when the attribute was set to null, or the geometry
    object. *)
Inductive JsRef (A : Type) :=
| Undefined
| Null
| Obj (a : A).
Arguments Undefined {A}.
Arguments Null {A}.
Arguments Obj {A} a.

(** ** Collaborators

    The conversion functions imported from [../gm.js] and [../util.js] are
    not part of this file's source; they are taken as an interface.  The
    herald only passes their results along.  Given a geometry object they
    answer; what they do when the geometry they are given is null (throw, or
    answer all the same) is left open. *)
Class Collaborators := {
  Shape : Type;        (* the coordinates an ol.geom.Geometry holds *)
  Point : Type;        (* ol.Coordinate *)
  LatLng : Type;       (* google.maps.LatLng *)
  GmGeometry : Type;   (* google.maps.Data.Geometry *)
  GmStyle : Type;      (* google.maps.Data.StyleOptions *)
  Icon : Type;         (* ol.style.Icon *)
  NonIcon : Type;      (* any other ol.style.Image *)
  TextStyle : Type;    (* ol.style.Text *)
  getCenterOf : Shape -> Point;
  createLatLng : Point -> LatLng;
  createFeatureGeometry : Shape -> GmGeometry;
  (* the geometry [createFeature] gives the new data feature *)
  createFeature_geometry : Shape -> GmGeometry;
  createStyle :
    option (Style Icon NonIcon TextStyle) -> MapIconOptions -> Z -> option GmStyle;
  (* [getCenterOf(null)] and [createFeatureGeometry(null)] *)
  getCenterOf_null : Result Point;
  createFeatureGeometry_null : Result GmGeometry;
  (* [createFeature] of a feature whose geometry is null: an exception, or
     the geometry, if any, of the data feature it makes *)
  createFeature_null : Result (option GmGeometry)
}.

Abbreviation OlStyle := (Style Icon NonIcon TextStyle).

Section Objects.
Context {C : Collaborators}.

(** ** The OpenLayers side *)

Inductive Target :=
| TGeometry (g : GeomId)   (* 'change' on a geometry object *)
| TFeature.                (* 'change:' + geometryName on the source feature *)

Inductive Handler :=
| HGeometryChange          (* this.handleGeometryChange_ *)
| HGeometryReplace.        (* this.handleGeometryReplace_ *)

Record Subscription := mkSub {
  sub_key : Key;
  sub_target : Target;
  sub_handler : Handler
}.

Record OlSide := mkOl {
  feat_geometry : JsRef GeomId;    (* feature.getGeometry() *)
  feat_style : option OlStyle;     (* what getStyleOf(feature) yields *)
  shapes : GeomId -> Shape;        (* the current coordinates of each geometry *)
  subs : list Subscription         (* live listeners, oldest first *)
}.

(** ** The Google Maps side *)

Inductive OverlayKind :=
| MapIcon (image : ImageStyle Icon NonIcon)
| MapLabel (text : TextStyle).

Record Overlay := mkOverlay {
  ov_kind : OverlayKind;
  ov_position : LatLng;
  ov_index : Z
}.

Record GmSide := mkGm {
  data_layer : gset MirrorId;                 (* features held by this.data_ *)
  mirror_geometry : gmap MirrorId GmGeometry; (* geometry of each data feature *)
  mirror_style : gmap MirrorId GmStyle;       (* style overrides of this.data_ *)
  overlays : gmap OverlayId Overlay;          (* the overlay objects *)
  on_map : gset OverlayId                     (* overlays attached to this.gmap *)
}.

(** A call made on a Google Maps object or factory, with its arguments.
    A reference argument is [None] when the herald passes null. *)
Inductive Call :=
| CreateFeature (f : MirrorId)
| DataAdd (f : option MirrorId)
| DataRemove (f : option MirrorId)
| DataOverrideStyle (f : option MirrorId) (s : GmStyle)
| FeatureSetGeometry (f : MirrorId) (g : GmGeometry)
| CreateMapIcon (o : OverlayId) (image : ImageStyle Icon NonIcon) (p : LatLng) (index : Z)
| CreateLabel (o : OverlayId) (text : TextStyle) (p : LatLng) (index : Z)
| OverlaySetMap (o : OverlayId) (attach : bool)
| OverlaySetPosition (o : OverlayId) (p : LatLng).

(** ** The herald instance *)

Record Bridge := mkBridge {
  index_ : Z;
  mapIconOptions_ : MapIconOptions;
  visible_ : bool;
  gmapFeature_ : option MirrorId;      (* null until activated *)
  label_ : option OverlayId;           (* null when there is no label *)
  marker_ : option OverlayId;          (* null when there is no marker *)
  geometryChangeKey_ : option Key;     (* undefined until activated *)
  listenerKeys : list Key;             (* Herald: the registered keys *)
  herald_active : bool                 (* Herald: the active mark *)
}.

Record World := mkWorld {
  this : Bridge;
  ol : OlSide;
  gm : GmSide;
  next_id : nat
}.

(** *** Field updates *)

Definition set_visible_ (v : bool) (b : Bridge) : Bridge :=
  mkBridge (index_ b) (mapIconOptions_ b) v (gmapFeature_ b) (label_ b)
    (marker_ b) (geometryChangeKey_ b) (listenerKeys b) (herald_active b).
Definition set_gmapFeature_ (f : option MirrorId) (b : Bridge) : Bridge :=
  mkBridge (index_ b) (mapIconOptions_ b) (visible_ b) f (label_ b)
    (marker_ b) (geometryChangeKey_ b) (listenerKeys b) (herald_active b).
Definition set_label_ (l : option OverlayId) (b : Bridge) : Bridge :=
  mkBridge (index_ b) (mapIconOptions_ b) (visible_ b) (gmapFeature_ b) l
    (marker_ b) (geometryChangeKey_ b) (listenerKeys b) (herald_active b).
Definition set_marker_ (m : option OverlayId) (b : Bridge) : Bridge :=
  mkBridge (index_ b) (mapIconOptions_ b) (visible_ b) (gmapFeature_ b) (label_ b)
    m (geometryChangeKey_ b) (listenerKeys b) (herald_active b).
Definition set_geometryChangeKey_ (k : option Key) (b : Bridge) : Bridge :=
  mkBridge (index_ b) (mapIconOptions_ b) (visible_ b) (gmapFeature_ b) (label_ b)
    (marker_ b) k (listenerKeys b) (herald_active b).
Definition set_listenerKeys (ks : list Key) (b : Bridge) : Bridge :=
  mkBridge (index_ b) (mapIconOptions_ b) (visible_ b) (gmapFeature_ b) (label_ b)
    (marker_ b) (geometryChangeKey_ b) ks (herald_active b).
Definition set_herald_active (a : bool) (b : Bridge) : Bridge :=
  mkBridge (index_ b) (mapIconOptions_ b) (visible_ b) (gmapFeature_ b) (label_ b)
    (marker_ b) (geometryChangeKey_ b) (listenerKeys b) a.

Definition set_feat_geometry (g : JsRef GeomId) (o : OlSide) : OlSide :=
  mkOl g (feat_style o) (shapes o) (subs o).
Definition set_feat_style (s : option OlStyle) (o : OlSide) : OlSide :=
  mkOl (feat_geometry o) s (shapes o) (subs o).
Definition set_shapes (f : GeomId -> Shape) (o : OlSide) : OlSide :=
  mkOl (feat_geometry o) (feat_style o) f (subs o).
Definition set_subs (l : list Subscription) (o : OlSide) : OlSide :=
  mkOl (feat_geometry o) (feat_style o) (shapes o) l.

Definition set_data_layer (d : gset MirrorId) (g : GmSide) : GmSide :=
  mkGm d (mirror_geometry g) (mirror_style g) (overlays g) (on_map g).
Definition set_mirror_geometry (m : gmap MirrorId GmGeometry) (g : GmSide) : GmSide :=
  mkGm (data_layer g) m (mirror_style g) (overlays g) (on_map g).
Definition set_mirror_style (m : gmap MirrorId GmStyle) (g : GmSide) : GmSide :=
  mkGm (data_layer g) (mirror_geometry g) m (overlays g) (on_map g).
Definition set_overlays (m : gmap OverlayId Overlay) (g : GmSide) : GmSide :=
  mkGm (data_layer g) (mirror_geometry g) (mirror_style g) m (on_map g).
Definition set_on_map (s : gset OverlayId) (g : GmSide) : GmSide :=
  mkGm (data_layer g) (mirror_geometry g) (mirror_style g) (overlays g) s.

Definition upd_this (f : Bridge -> Bridge) (w : World) : World :=
  mkWorld (f (this w)) (ol w) (gm w) (next_id w).
Definition upd_ol (f : OlSide -> OlSide) (w : World) : World :=
  mkWorld (this w) (f (ol w)) (gm w) (next_id w).
Definition upd_gm (f : GmSide -> GmSide) (w : World) : World :=
  mkWorld (this w) (ol w) (f (gm w)) (next_id w).
Definition set_next_id (n : nat) (w : World) : World :=
  mkWorld (this w) (ol w) (gm w) n.

(** ** The monad of methods *)

Definition M (A : Type) : Type := World -> Outcome World Call A.

Definition ret {A} (a : A) : M A := fun w => mkOut (Ok a) w [].

Definition bind {A B} (m : M A) (k : A -> M B) : M B := fun w =>
  match m w with
  | mkOut (Ok a) w1 t1 =>
      match k a w1 with
      | mkOut r w2 t2 => mkOut r w2 (t1 ++ t2)
      end
  | mkOut (Throw e) w1 t1 => mkOut (Throw e) w1 t1
  end.

Definition throw {A} (e : Error) : M A := fun w => mkOut (Throw e) w [].
Definition gets {A} (f : World -> A) : M A := fun w => mkOut (Ok (f w)) w [].
Definition modify (f : World -> World) : M unit := fun w => mkOut (Ok tt) (f w) [].
Definition emit (c : Call) : M unit := fun w => mkOut (Ok tt) w [c].
Definition when (b : bool) (m : M unit) : M unit := if b then m else ret tt.

(** [new] of any object: the allocator hands out the next identity. *)
Definition fresh : M nat := fun w =>
  mkOut (Ok (next_id w)) (set_next_id (S (next_id w)) w) [].

(** The outcome of a call that changes nothing. *)
Definition lift {A} (r : Result A) : M A :=
  match r with
  | Ok a => ret a
  | Throw e => throw e
  end.

End Objects.

Notation "'let!' x ':=' m 'in' k" := (bind m (fun x => k))
  (at level 10, x name, m at level 100, k at level 200,
   format "'[v' 'let!'  x  ':='  m  'in' '/' k ']'").
Notation "m '>>' k" := (bind m (fun _ => k))
  (at level 100, k at level 200, right associativity,
   format "'[v' m  '>>' '/' k ']'").

Section Methods.
Context {C : Collaborators}.

(** ** The event system (ol/Observable, ol/events)

    [target.on(type, listener, this)] registers a listener and returns its
    key.  When the same listener with the same [this] is registered on the
    target for that type already, nothing is added and the key of that
    registration is returned.  [Observable.unByKey(key)] removes the listener
    of that key and does nothing when the key is undefined.

    The herald is the only subscriber here, and it listens to 'change' on
    geometries and to 'change:geometry' on the feature only: the target and
    the handler tell the type, the listener and [this]. *)

Definition Target_eqb (a b : Target) : bool :=
  match a, b with
  | TGeometry g, TGeometry h => Nat.eqb g h
  | TFeature, TFeature => true
  | _, _ => false
  end.

Definition Handler_eqb (a b : Handler) : bool :=
  match a, b with
  | HGeometryChange, HGeometryChange => true
  | HGeometryReplace, HGeometryReplace => true
  | _, _ => false
  end.

(** The registration of the listener [h] on [t], if there is one. *)
Fixpoint findListener (t : Target) (h : Handler) (l : list Subscription)
  : option Subscription :=
  match l with
  | [] => None
  | s :: rest =>
      if Target_eqb (sub_target s) t && Handler_eqb (sub_handler s) h
      then Some s
      else findListener t h rest
  end.

Definition Observable_on (t : Target) (h : Handler) : M Key :=
  let! found := gets (fun w => findListener t h (subs (ol w))) in
  match found with
  | Some s => ret (sub_key s)
  | None =>
      let! k := fresh in
      modify (upd_ol (fun o => set_subs (subs o ++ [mkSub k t h]) o)) >>
      ret k
  end.

Definition drop_key (k : Key) (l : list Subscription) : list Subscription :=
  filter (fun s => sub_key s <> k) l.

Definition Observable_unByKey (k : option Key) : M unit :=
  match k with
  | None => ret tt
  | Some k => modify (upd_ol (fun o => set_subs (drop_key k (subs o)) o))
  end.

(** ** Array methods used on [listenerKeys] *)

(** [keys.indexOf(k)]: the first position of [k], or [-1]. *)
Fixpoint indexOf_from (keys : list Key) (k : Key) (i : Z) : Z :=
  match keys with
  | [] => (-1)%Z
  | x :: rest => if Nat.eqb x k then i else indexOf_from rest k (i + 1)%Z
  end.

Definition indexOf (keys : list Key) (k : option Key) : Z :=
  match k with
  | None => (-1)%Z          (* undefined is never an element *)
  | Some k => indexOf_from keys k 0%Z
  end.

(** [keys.splice(start, 1)]: a negative [start] counts from the end of the
    array, so [splice(-1, 1)] removes the last element. *)
Definition splice1 (keys : list Key) (start : Z) : list Key :=
  let len := Z.of_nat (length keys) in
  let actualStart :=
    if (start <? 0)%Z then Z.max (len + start) 0 else Z.min start len in
  take (Z.to_nat actualStart) keys ++ drop (S (Z.to_nat actualStart)) keys.

(** ** The Google Maps objects *)

(** [this.data_.add(f)], [this.data_.remove(f)] and
    [this.data_.overrideStyle(f, s)].  The call is always recorded; the
    contents of the data layer change only for an actual feature. *)
Definition Data_add (f : option MirrorId) : M unit :=
  emit (DataAdd f) >>
  match f with
  | Some m => modify (upd_gm (fun g => set_data_layer ({[m]} ∪ data_layer g) g))
  | None => ret tt
  end.

Definition Data_remove (f : option MirrorId) : M unit :=
  emit (DataRemove f) >>
  match f with
  | Some m => modify (upd_gm (fun g => set_data_layer (data_layer g ∖ {[m]}) g))
  | None => ret tt
  end.

Definition Data_overrideStyle (f : option MirrorId) (s : GmStyle) : M unit :=
  emit (DataOverrideStyle f s) >>
  match f with
  | Some m => modify (upd_gm (fun g => set_mirror_style (<[m := s]> (mirror_style g)) g))
  | None => ret tt
  end.

(** [f.setGeometry(arg)]; reading the method of null is a TypeError, which
    comes before the argument is evaluated. *)
Definition MirrorFeature_setGeometry (f : option MirrorId) (arg : M GmGeometry) : M unit :=
  match f with
  | None => throw TypeError
  | Some m =>
      let! geo := arg in
      emit (FeatureSetGeometry m geo) >>
      modify (upd_gm (fun g => set_mirror_geometry (<[m := geo]> (mirror_geometry g)) g))
  end.

(** [o.setMap(this.gmap)] when [attach], [o.setMap(null)] otherwise. *)
Definition Overlay_setMap (o : option OverlayId) (attach : bool) : M unit :=
  match o with
  | None => throw TypeError
  | Some i =>
      emit (OverlaySetMap i attach) >>
      modify (upd_gm (fun g =>
        set_on_map (if attach then {[i]} ∪ on_map g else on_map g ∖ {[i]}) g))
  end.

Definition move_overlay (p : LatLng) (o : Overlay) : Overlay :=
  mkOverlay (ov_kind o) p (ov_index o).

(** [o.set('position', p)]. *)
Definition Overlay_set_position (o : option OverlayId) (p : LatLng) : M unit :=
  match o with
  | None => throw TypeError
  | Some i =>
      emit (OverlaySetPosition i p) >>
      modify (upd_gm (fun g => set_overlays (alter (move_overlay p) i (overlays g)) g))
  end.

(** ** Factories of [../gm.js] and helpers of [../util.js] *)

(** Modelled from the spec: [createFeature] of gm.js,
    "createMirrorFeature(sourceFeature) -> MirrorFeature": a new data
    feature is made from the source feature; it is in no data layer yet.
    The spec does not say what happens when the source feature holds no
    geometry object; the interface leaves it open. *)
Definition createFeature : M MirrorId :=
  let! g := gets (fun w => feat_geometry (ol w)) in
  let! geo :=
    match g with
    | Obj g => gets (fun w => Some (createFeature_geometry (shapes (ol w) g)))
    | _ => lift createFeature_null
    end in
  let! f := fresh in
  emit (CreateFeature f) >>
  match geo with
  | Some geo =>
      modify (upd_gm (fun s => set_mirror_geometry (<[f := geo]> (mirror_geometry s)) s))
  | None => ret tt
  end >>
  ret f.

(** Modelled from the spec: [createMapIcon] of gm.js,
    "createIconOverlay(image, coordinate, drawIndex) -> IconOverlay": a new
    marker overlay at the coordinate, not yet attached to a map. *)
Definition createMapIcon (image : ImageStyle Icon NonIcon) (p : LatLng) (index : Z)
  : M OverlayId :=
  let! o := fresh in
  emit (CreateMapIcon o image p index) >>
  modify (upd_gm (fun g =>
    set_overlays (<[o := mkOverlay (MapIcon image) p index]> (overlays g)) g)) >>
  ret o.

(** Modelled from the spec: [createLabel] of gm.js,
    "createLabelOverlay(textStyle, coordinate, drawIndex) -> LabelOverlay":
    a new label overlay at the coordinate, not yet attached to a map. *)
Definition createLabel (text : TextStyle) (p : LatLng) (index : Z) : M OverlayId :=
  let! o := fresh in
  emit (CreateLabel o text p index) >>
  modify (upd_gm (fun g =>
    set_overlays (<[o := mkOverlay (MapLabel text) p index]> (overlays g)) g)) >>
  ret o.

(** Modelled from the spec: [getStyleOf] of util.js,
    "styleOf(sourceFeature) -> Style | null". *)
Definition getStyleOf : M (option OlStyle) :=
  gets (fun w => feat_style (ol w)).

(** Modelled from the spec: [assert] of asserts.js, which fails with a
    PreconditionError when its condition is false. *)
Definition assert (condition : bool) : M unit :=
  if condition then ret tt else throw PreconditionError.

(** ** The base class (Herald.js)

    Modelled from the spec: the Lifecycle Registry. "activate() marks the
    entity active, no-op if already active; deactivate() marks inactive and
    clears the subscription-handle list"; clearing removes every registered
    subscription. *)
Definition Herald_activate : M unit :=
  modify (upd_this (fun b => if herald_active b then b else set_herald_active true b)).

Fixpoint unByKeys (keys : list Key) : M unit :=
  match keys with
  | [] => ret tt
  | k :: rest => Observable_unByKey (Some k) >> unByKeys rest
  end.

Definition Herald_deactivate : M unit :=
  let! keys := gets (fun w => listenerKeys (this w)) in
  unByKeys keys >>
  modify (upd_this (fun b => set_herald_active false (set_listenerKeys [] b))).

(** [keys.push(k)] on [this.listenerKeys]. *)
Definition push_key (k : Key) : M unit :=
  modify (upd_this (fun b => set_listenerKeys (listenerKeys b ++ [k]) b)).

(** ** The constructor

    [options.visible] may be undefined, in which case the herald starts
    visible.  The prototype gives [gmapFeature_], [label_] and [marker_]
    the value null; [Herald.call] starts with no registered key. *)
Record FeatureOptions := mkFeatureOptions {
  opt_index : Z;
  opt_mapIconOptions : MapIconOptions;
  opt_visible : option bool
}.

Definition Feature_new (options : FeatureOptions) : Bridge :=
  mkBridge (opt_index options) (opt_mapIconOptions options)
    (match opt_visible options with Some v => v | None => true end)
    None None None None [] false.

(** ** Methods of the Feature herald *)

(** [x !== undefined] *)
Definition is_defined {A} (x : JsRef A) : bool :=
  match x with Undefined => false | _ => true end.

(** [x] is an object: neither undefined nor null. *)
Definition is_object {A} (x : JsRef A) : bool :=
  match x with Obj _ => true | _ => false end.

(** [getGeometry_]: the geometry of the source feature, which must not be
    undefined.  A null geometry passes the assertion and is returned. *)
Definition getGeometry_ : M (JsRef GeomId) :=
  let! geometry := gets (fun w => feat_geometry (ol w)) in
  assert (is_defined geometry) >>
  ret geometry.

(** [createLatLng(getCenterOf(geometry))] *)
Definition center_of (geometry : JsRef GeomId) : M LatLng :=
  match geometry with
  | Obj g => gets (fun w => createLatLng (getCenterOf (shapes (ol w) g)))
  | _ => let! p := lift getCenterOf_null in ret (createLatLng p)
  end.

(** [createFeatureGeometry(geometry)] *)
Definition feature_geometry_of (geometry : JsRef GeomId) : M GmGeometry :=
  match geometry with
  | Obj g => gets (fun w => createFeatureGeometry (shapes (ol w) g))
  | _ => lift createFeatureGeometry_null
  end.

(** [geometry.on('change', listener, this)]; a method call on null or
    undefined is a TypeError. *)
Definition Geometry_on (geometry : JsRef GeomId) (h : Handler) : M Key :=
  match geometry with
  | Obj g => Observable_on (TGeometry g) h
  | _ => throw TypeError
  end.

Definition is_icon (image : option (ImageStyle Icon NonIcon)) : bool :=
  match image with
  | Some (IconImage _) => true        (* image && image instanceof Icon *)
  | _ => false
  end.

Definition activate : M unit :=
  Herald_activate >>
  let! geometry := getGeometry_ in
  (* create gmap feature *)
  let! f := createFeature in
  modify (upd_this (set_gmapFeature_ (Some f))) >>
  let! visible := gets (fun w => visible_ (this w)) in
  when visible
    (let! f := gets (fun w => gmapFeature_ (this w)) in Data_add f) >>
  (* override style if a style is defined at the feature level *)
  let! gmStyle := gets (fun w =>
    createStyle (feat_style (ol w)) (mapIconOptions_ (this w)) (index_ (this w))) in
  match gmStyle with
  | Some s => let! f := gets (fun w => gmapFeature_ (this w)) in Data_overrideStyle f s
  | None => ret tt
  end >>
  (* if the feature has text style, add a map label to gmap *)
  let! latLng := center_of geometry in
  let! style := getStyleOf in
  match style with
  | Some style =>
      let zIndex := getZIndex style in
      let! index := gets (fun w =>
        match zIndex with Some z => z | None => index_ (this w) end) in
      let image := getImage style in
      let! useCanvas := gets (fun w =>
        match useCanvas (mapIconOptions_ (this w)) with
        | Some b => b
        | None => false
        end) in
      match image with
      | Some img =>
          when (is_icon image && useCanvas)
            (let! m := createMapIcon img latLng index in
             modify (upd_this (set_marker_ (Some m))) >>
             let! visible := gets (fun w => visible_ (this w)) in
             when visible
               (let! m := gets (fun w => marker_ (this w)) in Overlay_setMap m true))
      | None => ret tt
      end >>
      let text := getText style in
      match text with
      | Some t =>
          let! l := createLabel t latLng index in
          modify (upd_this (set_label_ (Some l))) >>
          let! visible := gets (fun w => visible_ (this w)) in
          when visible
            (let! l := gets (fun w => label_ (this w)) in Overlay_setMap l true)
      | None => ret tt
      end
  | None => ret tt
  end >>
  (* event listeners *)
  let! k := Geometry_on geometry HGeometryChange in
  modify (upd_this (set_geometryChangeKey_ (Some k))) >>
  push_key k >>
  let! k2 := Observable_on TFeature HGeometryReplace in
  push_key k2.

Definition deactivate : M unit :=
  (* remove gmap feature *)
  let! f := gets (fun w => gmapFeature_ (this w)) in
  Data_remove f >>
  modify (upd_this (set_gmapFeature_ None)) >>
  (* remove feature *)
  let! m := gets (fun w => marker_ (this w)) in
  match m with
  | Some _ => Overlay_setMap m false >> modify (upd_this (set_marker_ None))
  | None => ret tt
  end >>
  (* remove label *)
  let! l := gets (fun w => label_ (this w)) in
  match l with
  | Some _ => Overlay_setMap l false >> modify (upd_this (set_label_ None))
  | None => ret tt
  end >>
  Herald_deactivate.

Definition setVisible (value : bool) : M unit :=
  let! visible := gets (fun w => visible_ (this w)) in
  if value && negb visible then
    let! f := gets (fun w => gmapFeature_ (this w)) in
    Data_add f >>
    let! m := gets (fun w => marker_ (this w)) in
    match m with Some _ => Overlay_setMap m true | None => ret tt end >>
    let! l := gets (fun w => label_ (this w)) in
    match l with Some _ => Overlay_setMap l true | None => ret tt end >>
    modify (upd_this (set_visible_ true))
  else if negb value && visible then
    let! f := gets (fun w => gmapFeature_ (this w)) in
    Data_remove f >>
    let! m := gets (fun w => marker_ (this w)) in
    match m with Some _ => Overlay_setMap m false | None => ret tt end >>
    let! l := gets (fun w => label_ (this w)) in
    match l with Some _ => Overlay_setMap l false | None => ret tt end >>
    modify (upd_this (set_visible_ false))
  else ret tt.

Definition handleGeometryChange_ : M unit :=
  let! geometry := getGeometry_ in
  let! f := gets (fun w => gmapFeature_ (this w)) in
  MirrorFeature_setGeometry f (feature_geometry_of geometry) >>
  let! l := gets (fun w => label_ (this w)) in
  match l with
  | Some _ => let! latLng := center_of geometry in Overlay_set_position l latLng
  | None => ret tt
  end >>
  let! m := gets (fun w => marker_ (this w)) in
  match m with
  | Some _ => let! latLng := center_of geometry in Overlay_set_position m latLng
  | None => ret tt
  end.

Definition handleGeometryReplace_ : M unit :=
  let! k := gets (fun w => geometryChangeKey_ (this w)) in
  Observable_unByKey k >>
  let! index := gets (fun w => indexOf (listenerKeys (this w)) k) in
  modify (upd_this (fun b => set_listenerKeys (splice1 (listenerKeys b) index) b)) >>
  let! geometry := gets (fun w => feat_geometry (ol w)) in
  let! k := Geometry_on geometry HGeometryChange in
  modify (upd_this (set_geometryChangeKey_ (Some k))) >>
  push_key k >>
  handleGeometryChange_.

(** ** The environment: what the owner of the source feature can do *)

Definition run_handler (h : Handler) : M unit :=
  match h with
  | HGeometryChange => handleGeometryChange_
  | HGeometryReplace => handleGeometryReplace_
  end.

Definition listening (k : Key) (l : list Subscription) : bool :=
  existsb (fun s => Nat.eqb (sub_key s) k) l.

(** Delivery of one notification: the listeners registered on the target
    when the notification starts are called in order; one that was removed
    in the meantime is skipped. *)
Fixpoint deliver (pending : list Subscription) : M unit :=
  match pending with
  | [] => ret tt
  | s :: rest =>
      let! live := gets (fun w => listening (sub_key s) (subs (ol w))) in
      when live (run_handler (sub_handler s)) >>
      deliver rest
  end.

Definition dispatch (t : Target) : M unit :=
  let! pending := gets (fun w =>
    filter (fun s => Target_eqb (sub_target s) t = true) (subs (ol w))) in
  deliver pending.

(** [feature.setGeometry(g)]: the geometry attribute now holds another
    object (or null, or undefined), and the feature notifies
    'change:geometry'. *)
Definition Feature_setGeometry (g : JsRef GeomId) : M unit :=
  modify (upd_ol (set_feat_geometry g)) >>
  dispatch TFeature.

(** A mutation of the geometry object [g] (setCoordinates, translate, ...):
    its coordinates change and it notifies 'change'. *)
Definition Geometry_setShape (g : GeomId) (sh : Shape) : M unit :=
  modify (upd_ol (fun o =>
    set_shapes (fun h => if Nat.eqb h g then sh else shapes o h) o)) >>
  dispatch (TGeometry g).

(** [feature.setStyle(s)], seen through [getStyleOf]; nobody listens. *)
Definition Feature_setStyle (s : option OlStyle) : M unit :=
  modify (upd_ol (set_feat_style s)).

(** ** Reachable states of the herald

    "Inactive -> (activate) -> Active{visible | hidden} -> (deactivate) ->
    Inactive".  [Reach true w] says that [w] is a state of an active
    herald, [Reach false w] a state of an inactive one.  Only calls that
    return normally move the herald to a next state. *)

Definition constructed (w : World) : Prop :=
  (exists options, this w = Feature_new options) /\ subs (ol w) = [].

Inductive Reach : bool -> World -> Prop :=
| Reach_new w :
    constructed w -> Reach false w
| Reach_activate w w' tr :
    Reach false w -> activate w = mkOut (Ok tt) w' tr -> Reach true w'
| Reach_deactivate a w w' tr :
    Reach a w -> deactivate w = mkOut (Ok tt) w' tr -> Reach false w'
| Reach_setVisible a w v w' tr :
    Reach a w -> setVisible v w = mkOut (Ok tt) w' tr -> Reach a w'
| Reach_setGeometry a w g w' tr :
    Reach a w -> Feature_setGeometry g w = mkOut (Ok tt) w' tr -> Reach a w'
| Reach_setShape a w g sh w' tr :
    Reach a w -> Geometry_setShape g sh w = mkOut (Ok tt) w' tr -> Reach a w'
| Reach_setStyle a w s w' tr :
    Reach a w -> Feature_setStyle s w = mkOut (Ok tt) w' tr -> Reach a w'.

(** What holds of every state of an active herald. *)
Definition active_inv (w : World) : Prop :=
  exists (m : MirrorId) (k kr : Key) (g : GeomId),
    gmapFeature_ (this w) = Some m /\
    geometryChangeKey_ (this w) = Some k /\
    feat_geometry (ol w) = Obj g /\
    k <> kr /\ k < next_id w /\ kr < next_id w /\
    (subs (ol w) = [mkSub k (TGeometry g) HGeometryChange;
                    mkSub kr TFeature HGeometryReplace] \/
     subs (ol w) = [mkSub kr TFeature HGeometryReplace;
                    mkSub k (TGeometry g) HGeometryChange]) /\
    listenerKeys (this w) = map sub_key (subs (ol w)) /\
    herald_active (this w) = true /\
    (visible_ (this w) = true ->
       m ∈ data_layer (gm w) /\
       (forall l, label_ (this w) = Some l -> l ∈ on_map (gm w)) /\
       (forall i, marker_ (this w) = Some i -> i ∈ on_map (gm w))).

(** What holds of every state of an inactive herald. *)
Definition inactive_inv (w : World) : Prop :=
  gmapFeature_ (this w) = None /\
  label_ (this w) = None /\
  marker_ (this w) = None /\
  listenerKeys (this w) = [] /\
  herald_active (this w) = false /\
  subs (ol w) = [].

Definition inv (a : bool) (w : World) : Prop :=
  if a then active_inv w else inactive_inv w.

(** Which calls make a new object. *)
Definition is_creation (c : Call) : bool :=
  match c with
  | CreateFeature _ | CreateMapIcon _ _ _ _ | CreateLabel _ _ _ _ => true
  | _ => false
  end.

Definition creates_marker (c : Call) : bool :=
  match c with CreateMapIcon _ _ _ _ => true | _ => false end.

Definition creates_label (c : Call) : bool :=
  match c with CreateLabel _ _ _ _ => true | _ => false end.

(** The draw index an overlay is created with, for a creation call. *)
Definition overlay_index_of (c : Call) : option Z :=
  match c with
  | CreateMapIcon _ _ _ i | CreateLabel _ _ _ i => Some i
  | _ => None
  end.

(** ** Vocabulary of the statements *)

(** Removing the first occurrence of a key. *)
Fixpoint remove_first (k : Key) (keys : list Key) : list Key :=
  match keys with
  | [] => []
  | x :: rest => if Nat.eqb x k then rest else x :: remove_first k rest
  end.

(** Removing the listeners of several keys, one key after the other. *)
Definition drop_keys (ks : list Key) (l : list Subscription) : list Subscription :=
  fold_left (fun l k => drop_key k l) ks l.

(** The overlays on the map, or the features of the data layer, after an
    object that may be null is taken off or put on. *)
Definition detach (o : option OverlayId) (s : gset OverlayId) : gset OverlayId :=
  match o with Some i => s ∖ {[i]} | None => s end.

Definition attach (o : option OverlayId) (s : gset OverlayId) : gset OverlayId :=
  match o with Some i => {[i]} ∪ s | None => s end.

Definition without (f : option MirrorId) (d : gset MirrorId) : gset MirrorId :=
  match f with Some m => d ∖ {[m]} | None => d end.

Definition with_feature (f : option MirrorId) (d : gset MirrorId) : gset MirrorId :=
  match f with Some m => {[m]} ∪ d | None => d end.

(** The overlay objects after the overlay [o], when there is one, is given
    the position [p]. *)
Definition reposition (o : option OverlayId) (p : LatLng)
    (ovs : gmap OverlayId Overlay) : gmap OverlayId Overlay :=
  match o with Some i => alter (move_overlay p) i ovs | None => ovs end.

(** The calls made on an overlay that may be null. *)
Definition setMap_calls (o : option OverlayId) (a : bool) : list Call :=
  match o with Some i => [OverlaySetMap i a] | None => [] end.

Definition position_calls (o : option OverlayId) (p : LatLng) : list Call :=
  match o with Some i => [OverlaySetPosition i p] | None => [] end.

(** The world after the geometry object [g] got the coordinates [shp]. *)
Definition reshape (g : GeomId) (shp : Shape) (w : World) : World :=
  upd_ol (fun o => set_shapes (fun h => if Nat.eqb h g then shp else shapes o h) o) w.

(** What [on] answers for the listener [h] on [t], given the listeners [l]
    and the next identity [n]: the key, the listeners afterwards, and the
    next identity afterwards. *)
Definition listen_key (t : Target) (h : Handler) (l : list Subscription) (n : nat) : Key :=
  match findListener t h l with Some s => sub_key s | None => n end.

Definition listen_subs (t : Target) (h : Handler) (l : list Subscription) (n : nat)
  : list Subscription :=
  match findListener t h l with Some _ => l | None => l ++ [mkSub n t h] end.

Definition listen_next (t : Target) (h : Handler) (l : list Subscription) (n : nat) : nat :=
  match findListener t h l with Some _ => n | None => S n end.

(** The draw index [activate] resolves for a style. *)
Definition draw_index (w : World) (st : OlStyle) : Z :=
  match getZIndex st with Some z => z | None => index_ (this w) end.

End Methods.

(** ** What [activate] leaves behind

    The state and the calls of a successful [activate], written out; the
    properties section proves that [activate] computes exactly these. *)

Section ActivationOutcome.
Context {C : Collaborators}.

(** [useCanvas], with its default. *)
Definition canvas_enabled (w : World) : bool :=
  match useCanvas (mapIconOptions_ (this w)) with Some b => b | None => false end.

(** The image a marker is made from, and the text a label is made from. *)
Definition marker_source (w : World) : option (ImageStyle Icon NonIcon) :=
  match feat_style (ol w) with
  | Some st =>
      match getImage st with
      | Some (IconImage i) => if canvas_enabled w then Some (IconImage i) else None
      | _ => None
      end
  | None => None
  end.

Definition label_source (w : World) : option TextStyle :=
  match feat_style (ol w) with Some st => getText st | None => None end.

Definition style_index (w : World) : Z :=
  match feat_style (ol w) with
  | Some st => draw_index w st
  | None => index_ (this w)
  end.

(** The identities handed out, in the order of the [new]s. *)
Definition new_marker (w : World) : option OverlayId :=
  match marker_source w with Some _ => Some (S (next_id w)) | None => None end.

Definition after_marker (w : World) : nat :=
  match marker_source w with Some _ => S (S (next_id w)) | None => S (next_id w) end.

Definition new_label (w : World) : option OverlayId :=
  match label_source w with Some _ => Some (after_marker w) | None => None end.

(** The next identity once the overlays are made. *)
Definition new_key (w : World) : nat :=
  match label_source w with Some _ => S (after_marker w) | None => after_marker w end.

(** The key of the geometry-change listener, and the listeners and the
    next identity once it is registered; then the same for the replace
    listener. *)
Definition change_key (g : GeomId) (w : World) : Key :=
  listen_key (TGeometry g) HGeometryChange (subs (ol w)) (new_key w).

Definition subs_with_change (g : GeomId) (w : World) : list Subscription :=
  listen_subs (TGeometry g) HGeometryChange (subs (ol w)) (new_key w).

Definition next_with_change (g : GeomId) (w : World) : nat :=
  listen_next (TGeometry g) HGeometryChange (subs (ol w)) (new_key w).

Definition replace_key (g : GeomId) (w : World) : Key :=
  listen_key TFeature HGeometryReplace (subs_with_change g w) (next_with_change g w).

Definition subs_with_both (g : GeomId) (w : World) : list Subscription :=
  listen_subs TFeature HGeometryReplace (subs_with_change g w) (next_with_change g w).

Definition next_with_both (g : GeomId) (w : World) : nat :=
  listen_next TFeature HGeometryReplace (subs_with_change g w) (next_with_change g w).

Definition activated (g : GeomId) (w : World) : World :=
  let m := next_id w in
  let p := createLatLng (getCenterOf (shapes (ol w) g)) in
  mkWorld
    (mkBridge (index_ (this w)) (mapIconOptions_ (this w)) (visible_ (this w))
       (Some m)
       (match new_label w with Some l => Some l | None => label_ (this w) end)
       (match new_marker w with Some i => Some i | None => marker_ (this w) end)
       (Some (change_key g w))
       (listenerKeys (this w) ++ [change_key g w; replace_key g w]) true)
    (set_subs (subs_with_both g w) (ol w))
    (mkGm
       (if visible_ (this w) then {[m]} ∪ data_layer (gm w) else data_layer (gm w))
       (<[m := createFeature_geometry (shapes (ol w) g)]> (mirror_geometry (gm w)))
       (match createStyle (feat_style (ol w)) (mapIconOptions_ (this w)) (index_ (this w)) with
        | Some s => <[m := s]> (mirror_style (gm w))
        | None => mirror_style (gm w)
        end)
       (match label_source w with
        | Some t => <[after_marker w := mkOverlay (MapLabel t) p (style_index w)]>
        | None => fun ovs => ovs
        end
          (match marker_source w with
           | Some img => <[S m := mkOverlay (MapIcon img) p (style_index w)]>
           | None => fun ovs => ovs
           end (overlays (gm w))))
       (if visible_ (this w)
        then attach (new_label w) (attach (new_marker w) (on_map (gm w)))
        else on_map (gm w)))
    (next_with_both g w).

Definition activate_calls (g : GeomId) (w : World) : list Call :=
  let m := next_id w in
  let p := createLatLng (getCenterOf (shapes (ol w) g)) in
  CreateFeature m
  :: (if visible_ (this w) then [DataAdd (Some m)] else [])
  ++ match createStyle (feat_style (ol w)) (mapIconOptions_ (this w)) (index_ (this w)) with
     | Some s => [DataOverrideStyle (Some m) s]
     | None => []
     end
  ++ match marker_source w with
     | Some img =>
         CreateMapIcon (S m) img p (style_index w)
         :: (if visible_ (this w) then [OverlaySetMap (S m) true] else [])
     | None => []
     end
  ++ match label_source w with
     | Some t =>
         CreateLabel (after_marker w) t p (style_index w)
         :: (if visible_ (this w) then [OverlaySetMap (after_marker w) true] else [])
     | None => []
     end.

(** Calls that put something on, or take something off, the data layer or
    the map. *)
Definition shows_or_hides (c : Call) : bool :=
  match c with
  | DataAdd _ | DataRemove _ | OverlaySetMap _ _ => true
  | _ => false
  end.

(** The label and the marker the herald refers to are overlay objects of
    the right kind. *)
Definition refers_to_overlays (w : World) : Prop :=
  (forall l, label_ (this w) = Some l ->
     exists t p z, overlays (gm w) !! l = Some (mkOverlay (MapLabel t) p z)) /\
  (forall i, marker_ (this w) = Some i ->
     exists img p z, overlays (gm w) !! i = Some (mkOverlay (MapIcon img) p z)).

End ActivationOutcome.

(** ** A concrete feature

    Coordinates are pairs of integers and the conversions keep them as they
    are; image and text styles are numbered.  Given null, [getCenterOf] and
    [createFeatureGeometry] throw a TypeError, and [createFeature] makes a
    data feature without geometry. *)

Definition plane : Collaborators := {|
  Shape := Z * Z;
  Point := Z * Z;
  LatLng := Z * Z;
  GmGeometry := Z * Z;
  GmStyle := Z;
  Icon := nat;
  NonIcon := nat;
  TextStyle := nat;
  getCenterOf := fun p => p;
  createLatLng := fun p => p;
  createFeatureGeometry := fun p => p;
  createFeature_geometry := fun p => p;
  createStyle := fun st _ index =>
    match st with Some _ => Some index | None => None end;
  getCenterOf_null := Throw TypeError;
  createFeatureGeometry_null := Throw TypeError;
  createFeature_null := Ok None
|}.

Definition no_gm : @GmSide plane := mkGm ∅ ∅ ∅ ∅ ∅.

(** A source feature whose geometry (object 0) is centered at (1,1) and
    whose style has an icon and a text; canvas icons are enabled. *)
Definition icon_and_text : Style nat nat nat :=
  mkStyle None (Some (IconImage 1)) (Some 2).

Definition w_new : @World plane :=
  mkWorld
    (Feature_new (mkFeatureOptions 7 (mkMapIconOptions (Some true)) None))
    (@mkOl plane (Obj 0) (Some icon_and_text) (fun _ => (1, 1)%Z) [])
    no_gm 1.



(** The same feature when the icon options do not say [useCanvas]. *)
Definition w_plain : @World plane :=
  mkWorld
    (Feature_new (mkFeatureOptions 7 (mkMapIconOptions None) None))
    (ol w_new) no_gm 1.

(** A point feature at (0,0) without a style. *)
Definition w_point : @World plane :=
  mkWorld
    (Feature_new (mkFeatureOptions 7 (mkMapIconOptions None) None))
    (@mkOl plane (Obj 0) None (fun _ => (0, 0)%Z) [])
    no_gm 1.

(** The feature once its herald is activated. *)
Definition w_active : @World plane := final (activate w_new).

(** The same feature under a herald constructed hidden, before and after
    its activation. *)
Definition w_hidden_new : @World plane :=
  mkWorld
    (Feature_new (mkFeatureOptions 7 (mkMapIconOptions (Some true)) (Some false)))
    (ol w_new) no_gm 1.

Definition w_hidden : @World plane := final (activate w_hidden_new).

(** * Properties *)

Section Properties.
Context {C : Collaborators}.

Ltac crush_world w :=
  destruct w as [[idx opts vis gf lb mk gk lk ha] [fg fs sh sb] [dl mg ms ov om] nid].

Ltac run :=
  lazy beta iota zeta delta [
    activate deactivate setVisible handleGeometryChange_ handleGeometryReplace_
    getGeometry_ center_of feature_geometry_of Geometry_on is_icon assert
    getStyleOf createFeature createMapIcon
    createLabel Herald_activate Herald_deactivate push_key
    Data_add Data_remove Data_overrideStyle MirrorFeature_setGeometry
    Overlay_setMap Overlay_set_position Observable_unByKey
    bind ret gets modify emit when throw fresh lift
    upd_this upd_ol upd_gm set_next_id set_visible_
    set_gmapFeature_ set_label_ set_marker_ set_geometryChangeKey_
    set_listenerKeys set_herald_active set_feat_geometry set_feat_style
    set_shapes set_subs set_data_layer set_mirror_geometry
    set_mirror_style set_overlays set_on_map
    this ol gm next_id index_ mapIconOptions_ visible_ gmapFeature_ label_
    marker_ geometryChangeKey_ listenerKeys herald_active
    feat_geometry feat_style shapes subs
    data_layer mirror_geometry mirror_style overlays on_map
    getZIndex getImage getText useCanvas indexOf is_defined
    result final emitted andb negb ];
  cbn [app].

(** ** Arrays *)

Lemma indexOf_from_range keys k i :
  In k keys ->
  (i <= indexOf_from keys k i < i + Z.of_nat (length keys))%Z.
Proof.
  revert i. induction keys as [|x rest IH]; intros i Hin; [destruct Hin|].
  cbn [indexOf_from length]. destruct (Nat.eqb_spec x k) as [->|Hne].
  - lia.
  - destruct Hin as [->|Hin]; [congruence|]. specialize (IH (i + 1)%Z Hin). lia.
Qed.

Lemma indexOf_from_shift keys k i :
  In k keys -> indexOf_from keys k i = (i + indexOf_from keys k 0)%Z.
Proof.
  revert i. induction keys as [|x rest IH]; intros i Hin; [destruct Hin|].
  cbn [indexOf_from]. destruct (Nat.eqb_spec x k) as [->|Hne]; [lia|].
  destruct Hin as [->|Hin]; [congruence|].
  rewrite (IH (i + 1)%Z Hin), (IH (0 + 1)%Z Hin). lia.
Qed.

Lemma splice1_nonneg keys (i : nat) :
  splice1 keys (Z.of_nat i) = take i keys ++ drop (S i) keys.
Proof.
  unfold splice1. destruct (Z.ltb_spec (Z.of_nat i) 0); [lia|].
  destruct (le_lt_dec i (length keys)) as [Hle|Hgt].
  - rewrite Z.min_l by lia. by rewrite Nat2Z.id.
  - rewrite Z.min_r by lia. rewrite Nat2Z.id.
    rewrite !take_ge, !drop_ge by lia. done.
Qed.

Lemma splice1_indexOf keys k :
  In k keys -> splice1 keys (indexOf keys (Some k)) = remove_first k keys.
Proof.
  intros Hin. cbn [indexOf].
  pose proof (indexOf_from_range keys k 0 Hin) as Hr.
  rewrite <- (Z2Nat.id (indexOf_from keys k 0)) by lia.
  rewrite splice1_nonneg.
  induction keys as [|x rest IH]; [destruct Hin|].
  cbn [indexOf_from remove_first] in *.
  destruct (Nat.eqb_spec x k) as [->|Hne]; [done|].
  destruct Hin as [->|Hin]; [congruence|].
  pose proof (indexOf_from_range rest k 0 Hin) as Hr'.
  rewrite (indexOf_from_shift rest k (0 + 1) Hin).
  replace (Z.to_nat (0 + 1 + indexOf_from rest k 0))
    with (S (Z.to_nat (indexOf_from rest k 0))) by lia.
  cbn [take drop app]. f_equal. apply IH; [done | lia].
Qed.

(** A key that is not registered makes [splice] remove the last key. *)
Lemma splice1_absent keys x :
  splice1 (keys ++ [x]) (-1) = keys.
Proof.
  unfold splice1. rewrite length_app, Nat.add_1_r. cbn [Z.ltb Z.compare Z.opp].
  replace (Z.max (Z.of_nat (S (length keys)) + -1) 0) with (Z.of_nat (length keys)) by lia.
  rewrite Nat2Z.id, take_app_length, drop_ge by (rewrite length_app; cbn; lia).
  by rewrite app_nil_r.
Qed.

(** ** Listeners *)

Lemma elem_of_drop_keys ks l s :
  s ∈ drop_keys ks l <-> s ∈ l /\ sub_key s ∉ ks.
Proof.
  revert l. induction ks as [|k ks IH]; intros l; cbn [drop_keys fold_left].
  - split; [intros H; split; [done | apply not_elem_of_nil] | tauto].
  - fold (drop_keys ks (drop_key k l)). rewrite IH. unfold drop_key.
    rewrite list_elem_of_filter, not_elem_of_cons. tauto.
Qed.

Lemma drop_keys_all l :
  drop_keys (map sub_key l) l = [].
Proof.
  destruct (drop_keys (map sub_key l) l) as [|s rest] eqn:E; [done|].
  assert (Hs : s ∈ drop_keys (map sub_key l) l) by (rewrite E; left).
  apply elem_of_drop_keys in Hs as [Hin Hout]. destruct Hout.
  apply list_elem_of_In, in_map, list_elem_of_In, Hin.
Qed.

Lemma unByKeys_eval ks w :
  unByKeys ks w =
  mkOut (Ok tt) (upd_ol (fun o => set_subs (drop_keys ks (subs o)) o) w) [].
Proof.
  revert w. induction ks as [|k ks IH]; intros w.
  - crush_world w. reflexivity.
  - cbn [unByKeys]. unfold bind at 1. cbn [Observable_unByKey modify].
    rewrite IH. crush_world w. reflexivity.
Qed.

Lemma drop_key_hit k t h l :
  drop_key k (mkSub k t h :: l) = drop_key k l.
Proof. unfold drop_key. by rewrite filter_cons_False by (cbn; tauto). Qed.

Lemma drop_key_miss k s l :
  sub_key s <> k -> drop_key k (s :: l) = s :: drop_key k l.
Proof. intros H. unfold drop_key. by rewrite filter_cons_True. Qed.

(** ** Steps of the monad *)

Lemma bind_ret_tt (m : M unit) w :
  (m >> ret tt) w = m w.
Proof.
  unfold bind. destruct (m w) as [[[]|e] w1 t1]; cbn; by rewrite ?app_nil_r.
Qed.

Lemma bind_modify {B} f (k : unit -> M B) w :
  bind (modify f) k w = k tt (f w).
Proof. unfold bind, modify. by destruct (k tt (f w)). Qed.

Lemma bind_gets {A B} (f : World -> A) (k : A -> M B) w :
  bind (gets f) k w = k (f w) w.
Proof. unfold bind, gets. by destruct (k (f w) w). Qed.

(** [on], in closed form. *)
Lemma Observable_on_eval t h w :
  Observable_on t h w =
  mkOut (Ok (listen_key t h (subs (ol w)) (next_id w)))
    (mkWorld (this w)
       (set_subs (listen_subs t h (subs (ol w)) (next_id w)) (ol w))
       (gm w)
       (listen_next t h (subs (ol w)) (next_id w)))
    [].
Proof.
  crush_world w. unfold Observable_on, listen_key, listen_subs, listen_next.
  rewrite bind_gets. cbn [ol subs next_id this gm].
  destruct (findListener t h sb); reflexivity.
Qed.

Ltac run_on := run; repeat (rewrite Observable_on_eval; run).

(** When the listener is not registered yet, [on] makes a new key. *)
Lemma listen_new t h l n :
  findListener t h l = None ->
  listen_key t h l n = n /\
  listen_subs t h l n = l ++ [mkSub n t h] /\
  listen_next t h l n = S n.
Proof. unfold listen_key, listen_subs, listen_next. by intros ->. Qed.

(** When it is registered, [on] answers its key and adds nothing. *)
Lemma listen_again t h l n s :
  findListener t h l = Some s ->
  listen_key t h l n = sub_key s /\
  listen_subs t h l n = l /\
  listen_next t h l n = n.
Proof. unfold listen_key, listen_subs, listen_next. by intros ->. Qed.

Lemma findListener_app t h l l' :
  findListener t h (l ++ l') =
  match findListener t h l with
  | Some s => Some s
  | None => findListener t h l'
  end.
Proof.
  induction l as [|s l IH]; [reflexivity|]. cbn [app findListener].
  by destruct (Target_eqb (sub_target s) t && Handler_eqb (sub_handler s) h).
Qed.

Lemma Target_eqb_refl t : Target_eqb t t = true.
Proof. destruct t; [apply Nat.eqb_refl | reflexivity]. Qed.

Lemma Handler_eqb_refl h : Handler_eqb h h = true.
Proof. by destruct h. Qed.

(** After [on], the listener is registered under the key [on] gave. *)
Lemma findListener_listen t h l n :
  exists s, findListener t h (listen_subs t h l n) = Some s /\
            sub_key s = listen_key t h l n.
Proof.
  unfold listen_subs, listen_key.
  destruct (findListener t h l) as [s|] eqn:E; [by exists s|].
  exists (mkSub n t h). rewrite findListener_app, E. cbn.
  by rewrite Target_eqb_refl, Handler_eqb_refl.
Qed.

(** Registering a listener leaves the registration of another one as it is. *)
Lemma findListener_listen_other t h t' h' l n :
  Target_eqb t' t && Handler_eqb h' h = false ->
  findListener t h (listen_subs t' h' l n) = findListener t h l.
Proof.
  intros Hne. unfold listen_subs.
  destruct (findListener t' h' l) as [s|] eqn:E; [reflexivity|].
  rewrite findListener_app. destruct (findListener t h l); [reflexivity|].
  cbn. by rewrite Hne.
Qed.

(** ** What each method does, in closed form *)

Lemma setVisible_noop w :
  setVisible (visible_ (this w)) w = mkOut (Ok tt) w [].
Proof. crush_world w. destruct vis; reflexivity. Qed.

Lemma setVisible_hide w :
  visible_ (this w) = true ->
  setVisible false w =
  mkOut (Ok tt)
    (mkWorld (set_visible_ false (this w)) (ol w)
       (set_on_map (detach (label_ (this w)) (detach (marker_ (this w)) (on_map (gm w))))
          (set_data_layer (without (gmapFeature_ (this w)) (data_layer (gm w))) (gm w)))
       (next_id w))
    (DataRemove (gmapFeature_ (this w))
       :: setMap_calls (marker_ (this w)) false ++ setMap_calls (label_ (this w)) false).
Proof.
  crush_world w. cbn. intros ->. destruct gf, mk, lb; reflexivity.
Qed.

Lemma setVisible_show w :
  visible_ (this w) = false ->
  setVisible true w =
  mkOut (Ok tt)
    (mkWorld (set_visible_ true (this w)) (ol w)
       (set_on_map (attach (label_ (this w)) (attach (marker_ (this w)) (on_map (gm w))))
          (set_data_layer (with_feature (gmapFeature_ (this w)) (data_layer (gm w))) (gm w)))
       (next_id w))
    (DataAdd (gmapFeature_ (this w))
       :: setMap_calls (marker_ (this w)) true ++ setMap_calls (label_ (this w)) true).
Proof.
  crush_world w. cbn. intros ->. destruct gf, mk, lb; reflexivity.
Qed.

Lemma deactivate_eval w :
  deactivate w =
  mkOut (Ok tt)
    (mkWorld
       (mkBridge (index_ (this w)) (mapIconOptions_ (this w)) (visible_ (this w))
          None None None (geometryChangeKey_ (this w)) [] false)
       (set_subs (drop_keys (listenerKeys (this w)) (subs (ol w))) (ol w))
       (set_on_map (detach (label_ (this w)) (detach (marker_ (this w)) (on_map (gm w))))
          (set_data_layer (without (gmapFeature_ (this w)) (data_layer (gm w))) (gm w)))
       (next_id w))
    (DataRemove (gmapFeature_ (this w))
       :: setMap_calls (marker_ (this w)) false ++ setMap_calls (label_ (this w)) false).
Proof.
  crush_world w. unfold deactivate, Herald_deactivate.
  destruct gf, mk, lb; cbn; unfold bind; rewrite unByKeys_eval; reflexivity.
Qed.

Lemma handleGeometryChange_eval w m g :
  gmapFeature_ (this w) = Some m ->
  feat_geometry (ol w) = Obj g ->
  let geo := createFeatureGeometry (shapes (ol w) g) in
  let p := createLatLng (getCenterOf (shapes (ol w) g)) in
  handleGeometryChange_ w =
  mkOut (Ok tt)
    (mkWorld (this w) (ol w)
       (set_overlays
          (reposition (marker_ (this w)) p (reposition (label_ (this w)) p (overlays (gm w))))
          (set_mirror_geometry (<[m := geo]> (mirror_geometry (gm w))) (gm w)))
       (next_id w))
    (FeatureSetGeometry m geo
       :: position_calls (label_ (this w)) p ++ position_calls (marker_ (this w)) p).
Proof.
  crush_world w. cbn. intros -> ->. destruct mk, lb; reflexivity.
Qed.

Lemma handleGeometryChange_no_geometry w :
  feat_geometry (ol w) = Undefined ->
  handleGeometryChange_ w = mkOut (Throw PreconditionError) w [].
Proof. crush_world w. cbn. intros ->. reflexivity. Qed.

Lemma handleGeometryChange_no_mirror w :
  is_defined (feat_geometry (ol w)) = true ->
  gmapFeature_ (this w) = None ->
  handleGeometryChange_ w = mkOut (Throw TypeError) w [].
Proof.
  crush_world w. cbn [ol this feat_geometry gmapFeature_]. intros Hd ->.
  destruct fg; [discriminate Hd | reflexivity | reflexivity].
Qed.

(** The change handler when the geometry is null: the assertion lets null
    pass, and the conversions are called with null. *)
Lemma handleGeometryChange_null w m :
  gmapFeature_ (this w) = Some m ->
  feat_geometry (ol w) = Null ->
  handleGeometryChange_ w =
  match createFeatureGeometry_null with
  | Throw e => mkOut (Throw e) w []
  | Ok geo =>
      let g1 := set_mirror_geometry (<[m := geo]> (mirror_geometry (gm w))) (gm w) in
      match getCenterOf_null with
      | Ok c =>
          let p := createLatLng c in
          mkOut (Ok tt)
            (mkWorld (this w) (ol w)
               (set_overlays
                  (reposition (marker_ (this w)) p
                     (reposition (label_ (this w)) p (overlays (gm w)))) g1)
               (next_id w))
            (FeatureSetGeometry m geo
               :: position_calls (label_ (this w)) p ++ position_calls (marker_ (this w)) p)
      | Throw e =>
          mkOut (match label_ (this w), marker_ (this w) with
                 | None, None => Ok tt
                 | _, _ => Throw e
                 end)
            (mkWorld (this w) (ol w) g1 (next_id w))
            [FeatureSetGeometry m geo]
      end
  end.
Proof.
  crush_world w. cbn [this ol gmapFeature_ feat_geometry]. intros -> ->.
  destruct createFeatureGeometry_null as [geo|e] eqn:Hc;
    destruct getCenterOf_null as [c|e'] eqn:Hp;
    destruct mk, lb; run; rewrite ?Hc; run; rewrite ?Hp; run; rewrite ?Hp; run;
    reflexivity.
Qed.

#[local] Arguments splice1 _ _ : simpl never.
#[local] Arguments drop_key _ _ : simpl never.
#[local] Arguments indexOf_from _ _ _ : simpl never.

Lemma splice1_indexOf_from keys k :
  In k keys -> splice1 keys (indexOf_from keys k 0) = remove_first k keys.
Proof. apply splice1_indexOf. Qed.

(** The replace handler, when the key it holds is registered, the data
    feature exists and the feature's geometry attribute holds [g]. *)
Lemma handleGeometryReplace_eval w m k g :
  gmapFeature_ (this w) = Some m ->
  geometryChangeKey_ (this w) = Some k ->
  In k (listenerKeys (this w)) ->
  feat_geometry (ol w) = Obj g ->
  findListener (TGeometry g) HGeometryChange (drop_key k (subs (ol w))) = None ->
  let k' := next_id w in
  let geo := createFeatureGeometry (shapes (ol w) g) in
  let p := createLatLng (getCenterOf (shapes (ol w) g)) in
  handleGeometryReplace_ w =
  mkOut (Ok tt)
    (mkWorld
       (set_listenerKeys (remove_first k (listenerKeys (this w)) ++ [k'])
          (set_geometryChangeKey_ (Some k') (this w)))
       (set_subs (drop_key k (subs (ol w)) ++ [mkSub k' (TGeometry g) HGeometryChange])
          (ol w))
       (set_overlays
          (reposition (marker_ (this w)) p (reposition (label_ (this w)) p (overlays (gm w))))
          (set_mirror_geometry (<[m := geo]> (mirror_geometry (gm w))) (gm w)))
       (S (next_id w)))
    (FeatureSetGeometry m geo
       :: position_calls (label_ (this w)) p ++ position_calls (marker_ (this w)) p).
Proof.
  crush_world w.
  cbn [this ol gmapFeature_ geometryChangeKey_ listenerKeys feat_geometry subs].
  intros -> -> Hin -> Hf.
  destruct (listen_new _ _ _ nid Hf) as (Ek & Es & En).
  destruct mk, lb; run_on; rewrite Ek, Es, En, (splice1_indexOf_from _ _ Hin);
    reflexivity.
Qed.

(** Without a geometry object the replace handler throws: there is nothing
    to subscribe to. *)
Lemma handleGeometryReplace_no_object w :
  is_object (feat_geometry (ol w)) = false ->
  result (handleGeometryReplace_ w) = Throw TypeError.
Proof.
  crush_world w. cbn [ol feat_geometry]. intros Hg.
  destruct fg; [| | discriminate Hg]; destruct gk; reflexivity.
Qed.

(** ** Delivery of notifications *)

Lemma dispatch_nobody t w :
  subs (ol w) = [] -> dispatch t w = mkOut (Ok tt) w [].
Proof. intros Hs. unfold dispatch. rewrite bind_gets, Hs. reflexivity. Qed.

Lemma dispatch_single t w s :
  filter (fun s => Target_eqb (sub_target s) t = true) (subs (ol w)) = [s] ->
  listening (sub_key s) (subs (ol w)) = true ->
  dispatch t w = run_handler (sub_handler s) w.
Proof.
  intros Hf Hl. unfold dispatch. rewrite bind_gets, Hf. cbn [deliver].
  rewrite bind_gets, Hl. cbn [when]. apply bind_ret_tt.
Qed.

Lemma dispatch_empty t w :
  filter (fun s => Target_eqb (sub_target s) t = true) (subs (ol w)) = [] ->
  dispatch t w = mkOut (Ok tt) w [].
Proof. intros Hf. unfold dispatch. rewrite bind_gets, Hf. reflexivity. Qed.

Section TwoListeners.
Variables (k kr : Key) (g : GeomId) (l : list Subscription).
Hypothesis Hl :
  l = [mkSub k (TGeometry g) HGeometryChange; mkSub kr TFeature HGeometryReplace] \/
  l = [mkSub kr TFeature HGeometryReplace; mkSub k (TGeometry g) HGeometryChange].

Lemma pending_feature :
  filter (fun s => Target_eqb (sub_target s) TFeature = true) l
  = [mkSub kr TFeature HGeometryReplace].
Proof. destruct Hl as [-> | ->]; reflexivity. Qed.

Lemma pending_geometry_same :
  filter (fun s => Target_eqb (sub_target s) (TGeometry g) = true) l
  = [mkSub k (TGeometry g) HGeometryChange].
Proof.
  destruct Hl as [-> | ->].
  - rewrite filter_cons_True by (cbn; apply Nat.eqb_refl).
    by rewrite filter_cons_False by (cbn; congruence).
  - rewrite filter_cons_False by (cbn; congruence).
    by rewrite filter_cons_True by (cbn; apply Nat.eqb_refl).
Qed.

Lemma pending_geometry_other g' :
  g' <> g ->
  filter (fun s => Target_eqb (sub_target s) (TGeometry g') = true) l = [].
Proof.
  intros Hne. assert (Nat.eqb g g' = false) as E by (apply Nat.eqb_neq; congruence).
  destruct Hl as [-> | ->].
  - rewrite filter_cons_False by (cbn; congruence).
    by rewrite filter_cons_False by (cbn; congruence).
  - rewrite filter_cons_False by (cbn; congruence).
    by rewrite filter_cons_False by (cbn; congruence).
Qed.

Lemma listening_both : listening k l = true /\ listening kr l = true.
Proof.
  destruct Hl as [-> | ->]; unfold listening; cbn; rewrite !Nat.eqb_refl;
    split; try reflexivity; apply orb_true_r.
Qed.

Lemma keys_both : In k (map sub_key l).
Proof. destruct Hl as [-> | ->]; cbn; tauto. Qed.

Lemma drop_key_two :
  k <> kr -> drop_key k l = [mkSub kr TFeature HGeometryReplace].
Proof.
  intros Hne. destruct Hl as [-> | ->].
  - rewrite drop_key_hit, drop_key_miss by (cbn; congruence). done.
  - rewrite drop_key_miss, drop_key_hit by (cbn; congruence). done.
Qed.

Lemma remove_first_two :
  k <> kr -> remove_first k (map sub_key l) = [kr].
Proof.
  intros Hne. assert (Nat.eqb kr k = false) as E by (apply Nat.eqb_neq; congruence).
  destruct Hl as [-> | ->]; cbn; rewrite ?Nat.eqb_refl, ?E; reflexivity.
Qed.

(** Once the geometry-change listener is removed, no geometry-change
    listener is registered on any geometry. *)
Lemma no_change_listener_left g' :
  k <> kr -> findListener (TGeometry g') HGeometryChange (drop_key k l) = None.
Proof. intros Hne. by rewrite (drop_key_two Hne). Qed.
End TwoListeners.

(** ** Activation *)

Lemma activate_no_geometry w :
  feat_geometry (ol w) = Undefined ->
  activate w = mkOut (Throw PreconditionError) (final (Herald_activate w)) [].
Proof. crush_world w. cbn [ol feat_geometry]. intros ->. run. reflexivity. Qed.

(** Evaluation of [activate w] up to the point where the answer of
    [createStyle] is needed, a case split on that answer, and evaluation
    of the rest. *)
Ltac run_activate :=
  match goal with
  | |- context [activate ?w] =>
      let t := eval lazy head beta iota zeta delta [
        activate getGeometry_ assert is_defined createFeature Herald_activate Data_add
        bind ret gets modify emit when throw fresh
        upd_this upd_ol upd_gm set_next_id set_gmapFeature_ set_herald_active
        set_data_layer set_mirror_geometry
        this ol gm next_id index_ mapIconOptions_ visible_ gmapFeature_
        herald_active feat_geometry feat_style shapes
        data_layer mirror_geometry ] in (activate w) in
      change (activate w) with t
  end.

Ltac activate_cases w :=
  destruct w as [[idx [[[|]|]] [|] gf lb mk gk lk ha]
                 [fg [[[z|] [[i|o]|] [t|]]|] sh sb]
                 [dl mg ms ov om] nid].

(** Evaluation of the left-hand side of the first equation under three
    existential quantifiers, up to the first call whose answer is needed. *)
Ltac head_under_exists :=
  match goal with
  | |- (exists r w1 tr, ?lhs = _ /\ _) =>
      let t := eval lazy head beta iota zeta delta [
        activate getGeometry_ assert is_defined createFeature Herald_activate Data_add
        Data_overrideStyle center_of lift getStyleOf
        bind ret gets modify emit when throw fresh
        upd_this upd_ol upd_gm set_next_id set_gmapFeature_ set_herald_active
        set_data_layer set_mirror_geometry set_mirror_style
        this ol gm next_id index_ mapIconOptions_ visible_ gmapFeature_
        herald_active feat_geometry feat_style shapes
        data_layer mirror_geometry mirror_style result final emitted ] in lhs in
      change lhs with t
  end.

(** [activate] when the geometry is null.  The assertion of [getGeometry_]
    lets null pass; the call then fails in a conversion function, if one
    throws for null, and at the latest where it subscribes to null. *)
Lemma activate_null_facts w :
  feat_geometry (ol w) = Null ->
  exists r w1 tr,
    activate w = mkOut r w1 tr /\
    r = match createFeature_null with
        | Throw e => Throw e
        | Ok _ =>
            match getCenterOf_null with
            | Throw e => Throw e
            | Ok _ => Throw TypeError
            end
        end /\
    visible_ (this w1) = visible_ (this w) /\
    (forall x, x <> next_id w -> (x ∈ data_layer (gm w1) <-> x ∈ data_layer (gm w))) /\
    (useCanvas (mapIconOptions_ (this w)) = None ->
       existsb creates_marker tr = false /\ marker_ (this w1) = marker_ (this w)).
Proof.
  destruct createFeature_null as [[geo|]|e] eqn:Hcf;
    [destruct getCenterOf_null as [c|e'] eqn:Hp ..|].
  1,3: destruct w as [[idx [[[|]|]] [|] gf lb mk gk lk ha]
                      [fg [[zi [[i|o]|] [t|]]|] sh sb]
                      [dl mg ms ov om] nid].
  all: try (destruct w as [[idx [[[|]|]] [|] gf lb mk gk lk ha]
                           [fg fs sh sb] [dl mg ms ov om] nid]).
  all: destruct ha.
  all: cbn [ol feat_geometry]; intros ->.
  all: unfold activate, createFeature, center_of; rewrite ?Hcf, ?Hp.
  all: head_under_exists; try destruct (createStyle _ _ _) as [gs|]; run.
  all: eexists _, _, _; split; [reflexivity|].
  all: cbn [this gm visible_ data_layer next_id mapIconOptions_ useCanvas marker_].
  all: split; [reflexivity|]; split; [reflexivity|].
  all: split; [intros x Hx; set_solver|].
  all: intros Hc; try discriminate Hc; split; reflexivity.
Qed.

Lemma activate_null_fails w :
  feat_geometry (ol w) = Null -> result (activate w) <> Ok tt.
Proof.
  intros Hg. destruct (activate_null_facts w Hg) as (r & w1 & tr & -> & -> & _).
  cbn [result]. destruct createFeature_null; [destruct getCenterOf_null|]; discriminate.
Qed.

Ltac run_listen :=
  cbn [listen_key listen_subs listen_next findListener Target_eqb Handler_eqb
       sub_target sub_handler sub_key andb app].

Lemma activate_active w w' tr :
  inactive_inv w -> activate w = mkOut (Ok tt) w' tr -> active_inv w'.
Proof.
  intros (Hf & Hl & Hm & Hk & Ha & Hs).
  destruct (feat_geometry (ol w)) as [| |g] eqn:Hg;
    [ rewrite activate_no_geometry by done; discriminate
    | intros H; destruct (activate_null_fails w Hg); by rewrite H |].
  revert Hf Hl Hm Hk Ha Hs Hg.
  activate_cases w.
  all: cbn [this ol gm feat_geometry gmapFeature_ label_ marker_ listenerKeys herald_active subs].
  all: intros -> -> -> -> -> -> ->.
  all: run_activate; destruct (createStyle _ _ _) as [gs|]; run_on; run_listen.
  all: intros H; injection H as <- <-.
  all: unfold active_inv; run.
  all: eexists _, _, _, _; repeat apply conj.
  all: try reflexivity.
  all: try (left; reflexivity).
  all: try lia.
  all: intros Hv; try discriminate Hv.
  all: split; [set_solver | split; intros ? ?; simplify_eq; set_solver].
Qed.

(** ** Notifications reaching an active herald *)

Lemma Feature_setGeometry_active w og :
  active_inv w ->
  Feature_setGeometry og w = handleGeometryReplace_ (upd_ol (set_feat_geometry og) w).
Proof.
  intros (m & k & kr & g & _ & _ & _ & _ & _ & _ & Hs & _).
  unfold Feature_setGeometry. rewrite bind_modify.
  apply (dispatch_single TFeature _ (mkSub kr TFeature HGeometryReplace)).
  - crush_world w. apply (pending_feature k kr g _ Hs).
  - crush_world w. apply (listening_both k kr g _ Hs).
Qed.

Lemma Geometry_setShape_current w g shp :
  active_inv w -> feat_geometry (ol w) = Obj g ->
  Geometry_setShape g shp w = handleGeometryChange_ (reshape g shp w).
Proof.
  intros (m & k & kr & g' & _ & _ & Hg & _ & _ & _ & Hs & _) Hg'.
  rewrite Hg in Hg'. injection Hg' as ->.
  unfold Geometry_setShape. rewrite bind_modify. fold (reshape g shp w).
  apply (dispatch_single (TGeometry g) _ (mkSub k (TGeometry g) HGeometryChange)).
  - crush_world w. apply (pending_geometry_same k kr g _ Hs).
  - crush_world w. apply (listening_both k kr g _ Hs).
Qed.

Lemma Geometry_setShape_stale w g g' shp :
  active_inv w -> feat_geometry (ol w) = Obj g -> g' <> g ->
  Geometry_setShape g' shp w = mkOut (Ok tt) (reshape g' shp w) [].
Proof.
  intros (m & k & kr & g0 & _ & _ & Hg & _ & _ & _ & Hs & _) Hg' Hne.
  rewrite Hg in Hg'. injection Hg' as ->.
  unfold Geometry_setShape. rewrite bind_modify. fold (reshape g' shp w).
  apply dispatch_empty.
  crush_world w. apply (pending_geometry_other k kr g _ Hs g' Hne).
Qed.

Lemma Feature_setGeometry_inactive w og :
  inactive_inv w ->
  Feature_setGeometry og w = mkOut (Ok tt) (upd_ol (set_feat_geometry og) w) [].
Proof.
  intros (_ & _ & _ & _ & _ & Hs).
  unfold Feature_setGeometry. rewrite bind_modify. apply dispatch_nobody.
  crush_world w. exact Hs.
Qed.

Lemma Geometry_setShape_inactive w g shp :
  inactive_inv w ->
  Geometry_setShape g shp w = mkOut (Ok tt) (reshape g shp w) [].
Proof.
  intros (_ & _ & _ & _ & _ & Hs).
  unfold Geometry_setShape. rewrite bind_modify. apply dispatch_nobody.
  crush_world w. exact Hs.
Qed.

(** ** The invariants are kept *)

Lemma constructed_inactive w : constructed w -> inactive_inv w.
Proof.
  intros [[options Ht] Hs]. unfold inactive_inv. rewrite Ht. cbn. tauto.
Qed.

Lemma deactivate_inactive a w w' tr :
  inv a w -> deactivate w = mkOut (Ok tt) w' tr -> inactive_inv w'.
Proof.
  intros Hi. rewrite deactivate_eval. intros [= <- <-].
  unfold inactive_inv. cbn. repeat apply conj; try reflexivity.
  destruct a.
  - destruct Hi as (m & k & kr & g & _ & _ & _ & _ & _ & _ & _ & -> & _).
    apply drop_keys_all.
  - destruct Hi as (_ & _ & _ & -> & _ & ->). reflexivity.
Qed.

Lemma setVisible_cases w v :
  setVisible v w = mkOut (Ok tt) w [] \/
  (exists tr, setVisible v w =
     mkOut (Ok tt)
       (mkWorld (set_visible_ v (this w)) (ol w)
          (set_on_map
             (if v then attach (label_ (this w)) (attach (marker_ (this w)) (on_map (gm w)))
              else detach (label_ (this w)) (detach (marker_ (this w)) (on_map (gm w))))
             (set_data_layer
                (if v then with_feature (gmapFeature_ (this w)) (data_layer (gm w))
                 else without (gmapFeature_ (this w)) (data_layer (gm w)))
                (gm w)))
          (next_id w)) tr).
Proof.
  destruct (visible_ (this w)) eqn:Hv, v.
  - left. rewrite <- Hv. apply setVisible_noop.
  - right. eexists. by apply setVisible_hide.
  - right. eexists. by apply setVisible_show.
  - left. rewrite <- Hv. apply setVisible_noop.
Qed.

Lemma setVisible_inv a w v w' tr :
  inv a w -> setVisible v w = mkOut (Ok tt) w' tr -> inv a w'.
Proof.
  intros Hi. destruct (setVisible_cases w v) as [-> | [tr' ->]].
  - by intros [= <- <-].
  - intros [= <- <-]. destruct a.
    + destruct Hi as (m & k & kr & g & Hm & Hk & Hg & Hne & Hlt & Hlt' & Hs & Hl & Ha & Hv).
      exists m, k, kr, g. crush_world w. cbn in *. subst gf.
      repeat apply conj; try done.
      intros ->. clear Hv Hs. unfold attach, with_feature.
      destruct lb, mk; (split; [set_solver | split; intros ? ?; simplify_eq; set_solver]).
    + destruct Hi as (Hm & Hl & Hk & Hlk & Ha & Hs).
      crush_world w. cbn in *. by repeat apply conj.
Qed.

Lemma setGeometry_inv a w g w' tr :
  inv a w -> Feature_setGeometry g w = mkOut (Ok tt) w' tr -> inv a w'.
Proof.
  intros Hi. destruct a.
  - rewrite (Feature_setGeometry_active _ _ Hi).
    destruct g as [| |g].
    1,2: intros H; apply (f_equal result) in H;
         rewrite handleGeometryReplace_no_object in H by (by crush_world w);
         discriminate H.
    destruct Hi as (m & k & kr & g0 & Hm & Hk & Hg & Hne & Hlt & Hlt' & Hs & Hl & Ha & Hv).
    rewrite (handleGeometryReplace_eval _ m k g).
    + intros [= <- <-].
      rewrite Hl, (drop_key_two k kr g0 _ Hs Hne), (remove_first_two k kr g0 _ Hs Hne).
      exists m, (next_id w), kr, g.
      crush_world w. cbn in *.
      repeat apply conj; try done; try lia. by right.
    + by crush_world w.
    + by crush_world w.
    + crush_world w. cbn in *. rewrite Hl. apply (keys_both k kr g0 _ Hs).
    + by crush_world w.
    + crush_world w. cbn in *. apply (no_change_listener_left k kr g0 _ Hs g Hne).
  - rewrite (Feature_setGeometry_inactive _ _ Hi). intros [= <- <-].
    destruct Hi as (Hm & Hl & Hk & Hlk & Ha & Hs).
    crush_world w. cbn in *. by repeat apply conj.
Qed.

Lemma setShape_inv a w g shp w' tr :
  inv a w -> Geometry_setShape g shp w = mkOut (Ok tt) w' tr -> inv a w'.
Proof.
  intros Hi. destruct a.
  - pose proof Hi as (m & k & kr & g0 & Hm & Hk & Hg & Hne & Hlt & Hlt' & Hs & Hl & Ha & Hv).
    destruct (decide (g = g0)) as [-> | Hd].
    + rewrite (Geometry_setShape_current _ _ _ Hi Hg).
      rewrite (handleGeometryChange_eval _ m g0) by (by crush_world w).
      intros [= <- <-]. exists m, k, kr, g0.
      crush_world w. cbn in *. by repeat apply conj.
    + rewrite (Geometry_setShape_stale _ _ _ _ Hi Hg Hd).
      intros [= <- <-]. exists m, k, kr, g0.
      crush_world w. cbn in *. by repeat apply conj.
  - rewrite (Geometry_setShape_inactive _ _ _ Hi). intros [= <- <-].
    destruct Hi as (Hm & Hl & Hk & Hlk & Ha & Hs).
    crush_world w. cbn in *. by repeat apply conj.
Qed.

Lemma setStyle_inv a w s w' tr :
  inv a w -> Feature_setStyle s w = mkOut (Ok tt) w' tr -> inv a w'.
Proof.
  intros Hi [= <- <-]. destruct a.
  - destruct Hi as (m & k & kr & g0 & Hm & Hk & Hg & Hne & Hlt & Hlt' & Hs & Hl & Ha & Hv).
    exists m, k, kr, g0. crush_world w. cbn in *. by repeat apply conj.
  - destruct Hi as (Hm & Hl & Hk & Hlk & Ha & Hs).
    crush_world w. cbn in *. by repeat apply conj.
Qed.

(** Every reachable state satisfies the invariant of its phase. *)
Lemma Reach_inv a w : Reach a w -> inv a w.
Proof.
  induction 1 as [w Hc | w w' tr _ IH He | a w w' tr _ IH He | a w v w' tr _ IH He
                 | a w g w' tr _ IH He | a w g shp w' tr _ IH He | a w s w' tr _ IH He].
  - by apply constructed_inactive.
  - by apply (activate_active w w' tr).
  - by apply (deactivate_inactive a w w' tr).
  - by apply (setVisible_inv a w v w' tr).
  - by apply (setGeometry_inv a w g w' tr).
  - by apply (setShape_inv a w g shp w' tr).
  - by apply (setStyle_inv a w s w' tr).
Qed.

(** ** What activation does, for a feature that has a geometry *)

Lemma activate_facts w g :
  feat_geometry (ol w) = Obj g ->
  exists w1 tr,
    activate w = mkOut (Ok tt) w1 tr /\
    gmapFeature_ (this w1) = Some (next_id w) /\
    (existsb creates_marker tr = true <->
       exists st i, feat_style (ol w) = Some st /\ getImage st = Some (IconImage i) /\
                    useCanvas (mapIconOptions_ (this w)) = Some true) /\
    (existsb creates_label tr = true <->
       exists st t, feat_style (ol w) = Some st /\ getText st = Some t) /\
    (forall c i, In c tr -> overlay_index_of c = Some i ->
       exists st, feat_style (ol w) = Some st /\ i = draw_index w st) /\
    (existsb creates_marker tr = false -> marker_ (this w1) = marker_ (this w)) /\
    (existsb creates_label tr = false -> label_ (this w1) = label_ (this w)).
Proof.
  activate_cases w.
  all: destruct ha.
  all: cbn [ol feat_geometry]; intros ->.
  all: run_activate; destruct (createStyle _ _ _) as [gs|]; run_on.
  all: eexists _, _; split; [reflexivity|]; split; [reflexivity|].
  all: unfold draw_index; cbn.
  all: repeat apply conj.
  all: try reflexivity; try discriminate.
  all: try (intros _; eexists _, _; repeat apply conj; reflexivity).
  all: try (intros (st' & x' & H1 & H2 & H3); discriminate).
  all: try (intros (st' & x' & H1 & H2); discriminate).
  all: try (intros (st' & x' & H1 & H2 & H3); simplify_eq).
  all: try (intros (st' & x' & H1 & H2); simplify_eq).
  all: intros c j Hc Hj;
       repeat (destruct Hc as [<- | Hc];
               [try discriminate Hj; injection Hj as <-; eexists; split; reflexivity|]);
       destruct Hc.
Qed.

(** * The claims *)

(** C1. For every active herald, replacing the geometry object of the
    source feature by [g'] makes the replace handler run to the end; it
    takes the old geometry-change key [k] out of [listenerKeys] and removes
    its listener, listens to 'change' on [g'] under a new key which it
    stores and registers, and calls the geometry-change handler once, which
    gives the data feature the geometry of [g'].  A later mutation of [g']
    therefore still reaches the data feature. *)
Theorem C1_geometry_replace_resubscribes (w : World) (g' : GeomId) :
  Reach true w ->
  exists (m : MirrorId) (k : Key) (w' : World) (tr : list Call),
    gmapFeature_ (this w) = Some m /\
    geometryChangeKey_ (this w) = Some k /\
    Feature_setGeometry (Obj g') w = mkOut (Ok tt) w' tr /\
    (* the old key is unregistered and its listener removed *)
    listenerKeys (this w') = remove_first k (listenerKeys (this w)) ++ [next_id w] /\
    ~ In k (listenerKeys (this w')) /\
    listening k (subs (ol w')) = false /\
    (* the new key listens to the new geometry *)
    geometryChangeKey_ (this w') = Some (next_id w) /\
    In (mkSub (next_id w) (TGeometry g') HGeometryChange) (subs (ol w')) /\
    (* the geometry-change handler ran once *)
    tr = FeatureSetGeometry m (createFeatureGeometry (shapes (ol w) g'))
           :: position_calls (label_ (this w)) (createLatLng (getCenterOf (shapes (ol w) g')))
           ++ position_calls (marker_ (this w)) (createLatLng (getCenterOf (shapes (ol w) g'))) /\
    mirror_geometry (gm w') !! m = Some (createFeatureGeometry (shapes (ol w) g')) /\
    (* mutating the new geometry still updates the data feature *)
    forall shp, exists w'' tr',
      Geometry_setShape g' shp w' = mkOut (Ok tt) w'' tr' /\
      gmapFeature_ (this w'') = Some m /\
      mirror_geometry (gm w'') !! m = Some (createFeatureGeometry shp).
Proof.
  intros HR. pose proof (Reach_inv _ _ HR) as Hi.
  pose proof Hi as (m & k & kr & g0 & Hm & Hk & Hg & Hne & Hlt & Hlt' & Hs & Hl & Ha & Hv).
  assert (He : Feature_setGeometry (Obj g') w =
               handleGeometryReplace_ (upd_ol (set_feat_geometry (Obj g')) w))
    by apply (Feature_setGeometry_active _ _ Hi).
  rewrite (handleGeometryReplace_eval _ m k g') in He; cycle 1.
  { by crush_world w. } { by crush_world w. }
  { crush_world w. cbn in *. rewrite Hl. apply (keys_both k kr g0 _ Hs). }
  { by crush_world w. }
  { crush_world w. cbn in *. apply (no_change_listener_left k kr g0 _ Hs g' Hne). }
  eexists m, k, _, _. split; [exact Hm|]. split; [exact Hk|]. split; [exact He|].
  pose proof (Reach_inv _ _ (Reach_setGeometry _ _ _ _ _ HR He)) as Hi'.
  assert (Hk' : k <> next_id w) by lia.
  assert (Hkr' : kr <> next_id w) by lia.
  assert (E1 : Nat.eqb kr k = false) by (apply Nat.eqb_neq; congruence).
  assert (E2 : Nat.eqb (next_id w) k = false) by (apply Nat.eqb_neq; congruence).
  split; [by crush_world w|].
  split.
  { crush_world w. cbn in *. rewrite Hl, (remove_first_two k kr g0 _ Hs Hne).
    cbn. intros [?|[?|[]]]; congruence. }
  split.
  { crush_world w. cbn in *. rewrite (drop_key_two k kr g0 _ Hs Hne).
    unfold listening. cbn. by rewrite E1, E2. }
  split; [by crush_world w|].
  split; [crush_world w; cbn; apply in_or_app; right; by left|].
  split; [by crush_world w|].
  split; [crush_world w; cbn; apply lookup_insert_eq|].
  intros shp.
  rewrite (Geometry_setShape_current _ g' shp Hi') by (by crush_world w).
  rewrite (handleGeometryChange_eval _ m g') by (by crush_world w).
  eexists _, _. split; [reflexivity|]. split; [by crush_world w|].
  crush_world w. cbn. rewrite Nat.eqb_refl. apply lookup_insert_eq.
Qed.

(** C2. For every source feature that has a geometry, [activate()]
    followed at once by [deactivate()] leaves [listenerKeys] empty and no
    listener under any key that was registered, takes the data feature out
    of the data layer, and sets the herald's references to the data
    feature, the label and the marker back to null. *)
Theorem C2_activate_then_deactivate (w : World) (g : GeomId) :
  feat_geometry (ol w) = Obj g ->
  exists (w1 : World) (tr1 : list Call) (w2 : World) (tr2 : list Call) (m : MirrorId),
    activate w = mkOut (Ok tt) w1 tr1 /\
    deactivate w1 = mkOut (Ok tt) w2 tr2 /\
    listenerKeys (this w2) = [] /\
    (forall s, s ∈ subs (ol w2) -> sub_key s ∉ listenerKeys (this w1)) /\
    gmapFeature_ (this w1) = Some m /\
    In (DataRemove (Some m)) tr2 /\
    (m ∉ data_layer (gm w2)) /\
    gmapFeature_ (this w2) = None /\
    label_ (this w2) = None /\
    marker_ (this w2) = None.
Proof.
  intros Hg. destruct (activate_facts w g Hg) as (w1 & tr1 & He & Hm & _).
  exists w1, tr1. eexists _, _, (next_id w).
  split; [exact He|]. split; [apply deactivate_eval|].
  cbn. rewrite Hm. cbn.
  repeat apply conj; try reflexivity.
  - intros s Hs. by apply elem_of_drop_keys in Hs as [_ ?].
  - by left.
  - set_solver.
Qed.


Lemma reattach (l i : option OverlayId) (om : gset OverlayId) :
  (forall o, l = Some o -> o ∈ om) ->
  (forall o, i = Some o -> o ∈ om) ->
  attach l (attach i (detach l (detach i om))) = om.
Proof.
  intros Hl Hi. apply set_eq. intros x.
  destruct l as [l|], i as [i|]; cbn;
    try specialize (Hl _ eq_refl); try specialize (Hi _ eq_refl);
    try (destruct (decide (x = l)) as [->|]);
    try (destruct (decide (x = i)) as [->|]); set_solver.
Qed.

(** C4. For every active and visible herald, [setVisible(false)] followed
    by [setVisible(true)] gives back the very state it started from: the
    same data feature is in the data layer again, the same label and marker
    objects are on the map again, the flag is true, and no object was made
    on the way.  In between, the flag is false and the data feature and the
    overlays are off the data layer and the map. *)
Theorem C4_hide_then_show_roundtrip (w : World) :
  Reach true w -> visible_ (this w) = true ->
  exists (m : MirrorId) (w1 : World) (tr1 tr2 : list Call),
    gmapFeature_ (this w) = Some m /\
    setVisible false w = mkOut (Ok tt) w1 tr1 /\
    visible_ (this w1) = false /\
    (m ∉ data_layer (gm w1)) /\
    (forall o, label_ (this w) = Some o \/ marker_ (this w) = Some o ->
               o ∉ on_map (gm w1)) /\
    gmapFeature_ (this w1) = Some m /\
    label_ (this w1) = label_ (this w) /\
    marker_ (this w1) = marker_ (this w) /\
    setVisible true w1 = mkOut (Ok tt) w tr2 /\
    m ∈ data_layer (gm w) /\
    (forall o, label_ (this w) = Some o \/ marker_ (this w) = Some o ->
               o ∈ on_map (gm w)) /\
    existsb is_creation (tr1 ++ tr2) = false.
Proof.
  intros HR Hvis. pose proof (Reach_inv _ _ HR) as Hi.
  destruct Hi as (m & k & kr & g0 & Hm & Hk & Hg & Hne & Hlt & Hlt' & Hs & Hl & Ha & Hv).
  destruct (Hv Hvis) as (Hin & Hlab & Hmar).
  eexists m, _, _,
    (DataAdd (gmapFeature_ (this w))
       :: setMap_calls (marker_ (this w)) true ++ setMap_calls (label_ (this w)) true).
  split; [exact Hm|].
  split; [by apply setVisible_hide|].
  rewrite setVisible_show by reflexivity.
  crush_world w. cbn in *. subst gf vis. clear Hs Hv.
  repeat apply conj; try reflexivity; try done.
  - set_solver.
  - intros o Ho. destruct lb, mk; cbn; destruct Ho; simplify_eq; set_solver.
  - unfold set_on_map, set_data_layer, with_feature, without. cbn.
    rewrite reattach by done.
    rewrite <- (union_difference_singleton_L m dl Hin). reflexivity.
  - intros o [-> | ->]; eauto.
  - destruct mk, lb; reflexivity.
Qed.

(** C5. [setVisible(v)] on a herald whose flag already is [v] changes
    nothing and makes no call on the data layer or on an overlay; and for
    every state, [setVisible(v)] twice is the same as once. *)
Theorem C5_setVisible_same_value_noop (w : World) (v : bool) :
  setVisible (visible_ (this w)) w = mkOut (Ok tt) w [] /\
  (setVisible v >> setVisible v) w = setVisible v w.
Proof.
  split.
  - apply setVisible_noop.
  - unfold bind.
    destruct (Bool.bool_dec (visible_ (this w)) v) as [<- | Hne].
    + by rewrite !setVisible_noop.
    + destruct (visible_ (this w)) eqn:Hv, v; try congruence.
      * rewrite (setVisible_hide _ Hv).
        change false with (visible_ (this (mkWorld (set_visible_ false (this w)) (ol w)
          (set_on_map (detach (label_ (this w)) (detach (marker_ (this w)) (on_map (gm w))))
             (set_data_layer (without (gmapFeature_ (this w)) (data_layer (gm w))) (gm w)))
          (next_id w)))) at 1.
        rewrite setVisible_noop. by rewrite app_nil_r.
      * rewrite (setVisible_show _ Hv).
        change true with (visible_ (this (mkWorld (set_visible_ true (this w)) (ol w)
          (set_on_map (attach (label_ (this w)) (attach (marker_ (this w)) (on_map (gm w))))
             (set_data_layer (with_feature (gmapFeature_ (this w)) (data_layer (gm w))) (gm w)))
          (next_id w)))) at 1.
        rewrite setVisible_noop. by rewrite app_nil_r.
Qed.

Lemma lookup_reposition (l i : option OverlayId) p (ovs : gmap OverlayId Overlay) o :
  reposition i p (reposition l p ovs) !! o =
  if decide (l = Some o \/ i = Some o)
  then move_overlay p <$> ovs !! o
  else ovs !! o.
Proof.
  assert (Hmm : forall x : option Overlay,
    move_overlay p <$> (move_overlay p <$> x) = move_overlay p <$> x)
    by (by intros [[]|]).
  destruct l as [l|], i as [i|]; cbn; rewrite ?lookup_alter;
    repeat case_decide; simplify_eq; try done; naive_solver.
Qed.

Lemma dom_reposition (o : option OverlayId) p (ovs : gmap OverlayId Overlay) :
  dom (reposition o p ovs) = dom ovs.
Proof. destruct o; cbn; [apply dom_alter_L | done]. Qed.

Lemma no_creation_in_positions o p :
  existsb is_creation (position_calls o p) = false.
Proof. by destruct o. Qed.

(** C6. For every active herald the geometry-change handler returns
    normally and touches two things only: the geometry of the data feature,
    and the position of the label and of the marker when they exist, which
    becomes the new center.  The herald's own fields (among them the label
    and marker references and the visibility flag), the source side, the
    data layer, the set of overlays on the map, the set of overlay objects
    and every other overlay stay as they were, and no object is made. *)
Theorem C6_geometry_change_frame (w : World) :
  Reach true w ->
  exists (m : MirrorId) (g : GeomId) (w' : World) (tr : list Call),
    gmapFeature_ (this w) = Some m /\
    feat_geometry (ol w) = Obj g /\
    handleGeometryChange_ w = mkOut (Ok tt) w' tr /\
    this w' = this w /\
    ol w' = ol w /\
    next_id w' = next_id w /\
    data_layer (gm w') = data_layer (gm w) /\
    on_map (gm w') = on_map (gm w) /\
    mirror_style (gm w') = mirror_style (gm w) /\
    mirror_geometry (gm w') =
      <[m := createFeatureGeometry (shapes (ol w) g)]> (mirror_geometry (gm w)) /\
    dom (overlays (gm w')) = dom (overlays (gm w)) /\
    (forall o,
       overlays (gm w') !! o =
       if decide (label_ (this w) = Some o \/ marker_ (this w) = Some o)
       then move_overlay (createLatLng (getCenterOf (shapes (ol w) g)))
              <$> overlays (gm w) !! o
       else overlays (gm w) !! o) /\
    existsb is_creation tr = false.
Proof.
  intros HR. pose proof (Reach_inv _ _ HR) as Hi.
  destruct Hi as (m & k & kr & g & Hm & Hk & Hg & _).
  eexists m, g, _, _. split; [exact Hm|]. split; [exact Hg|].
  split; [by apply handleGeometryChange_eval|].
  cbn. repeat apply conj; try reflexivity.
  - by rewrite !dom_reposition.
  - intros o. apply lookup_reposition.
  - by rewrite existsb_app, !no_creation_in_positions.
Qed.

(** C7. During [activate()], a marker overlay is made exactly when the
    source style has an image that is an [Icon] and [useCanvas] is true; a
    label overlay is made exactly when the source style has a text style;
    every overlay made gets the style's z-index as its draw index when the
    style defines one, and the herald's [index_] otherwise.  So a style with
    an icon and a text gives both overlays when canvas rendering is on, and
    the label alone when it is off. *)
Theorem C7_overlays_created_by_activate (w : World) (g : GeomId) :
  feat_geometry (ol w) = Obj g ->
  let tr := emitted (activate w) in
  result (activate w) = Ok tt /\
  (existsb creates_marker tr = true <->
     exists st i, feat_style (ol w) = Some st /\ getImage st = Some (IconImage i) /\
                  useCanvas (mapIconOptions_ (this w)) = Some true) /\
  (existsb creates_label tr = true <->
     exists st t, feat_style (ol w) = Some st /\ getText st = Some t) /\
  (forall c i, In c tr -> overlay_index_of c = Some i ->
     exists st, feat_style (ol w) = Some st /\
       i = match getZIndex st with Some z => z | None => index_ (this w) end) /\
  (forall st i t,
     feat_style (ol w) = Some st -> getImage st = Some (IconImage i) ->
     getText st = Some t ->
     existsb creates_label tr = true /\
     existsb creates_marker tr =
       match useCanvas (mapIconOptions_ (this w)) with Some b => b | None => false end).
Proof.
  intros Hg tr.
  destruct (activate_facts w g Hg) as (w1 & tr1 & He & _ & Hmk & Hlb & Hix & _).
  subst tr. rewrite He. cbn [result emitted].
  split; [reflexivity|]. split; [exact Hmk|]. split; [exact Hlb|]. split; [exact Hix|].
  intros st i t Hst Hi Ht. split.
  - apply Hlb. eauto.
  - destruct (useCanvas (mapIconOptions_ (this w))) as [[|]|] eqn:Hc.
    + apply Hmk. eauto 6.
    + apply not_true_is_false. intros H. apply Hmk in H as (? & ? & _ & _ & ?). congruence.
    + apply not_true_is_false. intros H. apply Hmk in H as (? & ? & _ & _ & ?). congruence.
Qed.

(** C8. [deactivate()] returns normally from every state, so it is safe at
    any point after [activate()]; and a second [deactivate()] right after
    the first leaves the state exactly as the first left it and returns
    normally.  Its only call is [this.data_.remove(null)], which does not
    change the data layer. *)
Theorem C8_deactivate_twice (w : World) :
  result (deactivate w) = Ok tt /\
  listenerKeys (this (final (deactivate w))) = [] /\
  deactivate (final (deactivate w)) =
    mkOut (Ok tt) (final (deactivate w)) [DataRemove None].
Proof.
  rewrite (deactivate_eval w). cbn [result final].
  split; [reflexivity|]. split; [reflexivity|].
  rewrite deactivate_eval. crush_world w. reflexivity.
Qed.

(** C9. When the icon options leave [useCanvas] undefined, [activate()]
    makes no marker overlay and leaves [marker_] as it was, whatever the
    source style holds. *)
Theorem C9_useCanvas_undefined_no_marker (w : World) :
  useCanvas (mapIconOptions_ (this w)) = None ->
  existsb creates_marker (emitted (activate w)) = false /\
  marker_ (this (final (activate w))) = marker_ (this w).
Proof.
  intros Hc. destruct (feat_geometry (ol w)) as [| |g] eqn:Hg.
  - rewrite (activate_no_geometry _ Hg). crush_world w. by destruct ha.
  - destruct (activate_null_facts w Hg) as (r & w1 & tr & -> & _ & _ & _ & Hm).
    exact (Hm Hc).
  - destruct (activate_facts w g Hg) as (w1 & tr1 & He & _ & Hmk & _ & _ & Hkeep & _).
    rewrite He. cbn [emitted final].
    assert (Hno : existsb creates_marker tr1 = false).
    { apply not_true_is_false. intros H. apply Hmk in H as (? & ? & _ & _ & ?). congruence. }
    split; [exact Hno | exact (Hkeep Hno)].
Qed.

(** C10. [setVisible] checks neither that the herald is active nor that
    [gmapFeature_] is set: on an inactive herald, whose [gmapFeature_] is
    null, a call with a value other than the stored flag passes null to
    [this.data_.add] (when showing) or [this.data_.remove] (when hiding),
    and flips the flag. *)
Theorem C10_setVisible_inactive_passes_null (w : World) (v : bool) :
  Reach false w -> v <> visible_ (this w) ->
  gmapFeature_ (this w) = None /\
  setVisible v w =
    mkOut (Ok tt) (upd_this (set_visible_ v) w)
      [if v then DataAdd None else DataRemove None].
Proof.
  intros HR Hv. pose proof (Reach_inv _ _ HR) as (Hm & Hl & Hk & _).
  split; [exact Hm|].
  destruct (visible_ (this w)) eqn:Hvis, v; try congruence.
  - rewrite (setVisible_hide _ Hvis), Hm, Hl, Hk.
    crush_world w. reflexivity.
  - rewrite (setVisible_show _ Hvis), Hm, Hl, Hk.
    crush_world w. reflexivity.
Qed.

(** * Further properties of the herald *)

(** ** [activate], in closed form *)

Lemma activate_eval w g :
  feat_geometry (ol w) = Obj g ->
  activate w = mkOut (Ok tt) (activated g w) (activate_calls g w).
Proof.
  activate_cases w.
  all: destruct ha.
  all: cbn [ol feat_geometry]; intros ->.
  all: unfold activated, activate_calls, change_key, replace_key, subs_with_both,
         next_with_both, subs_with_change, next_with_change,
         new_key, new_label, after_marker, new_marker,
         marker_source, label_source, canvas_enabled, style_index, draw_index.
  all: run_activate.
  all: repeat match goal with
         | |- context [createStyle ?a ?b ?c] =>
             let a' := eval lazy in a in
             let b' := eval lazy in b in
             let c' := eval lazy in c in
             progress change (createStyle a b c) with (createStyle a' b' c')
         end.
  all: destruct (createStyle _ _ _) as [gs|]; run_on; rewrite <- ?app_assoc; reflexivity.
Qed.

(** ** Steps of the herald, inverted *)

Lemma activate_inv_eval w w' tr :
  activate w = mkOut (Ok tt) w' tr ->
  exists g, feat_geometry (ol w) = Obj g /\ w' = activated g w /\ tr = activate_calls g w.
Proof.
  destruct (feat_geometry (ol w)) as [| |g] eqn:Hg.
  - rewrite (activate_no_geometry w Hg). discriminate.
  - intros H. destruct (activate_null_fails w Hg). by rewrite H.
  - rewrite (activate_eval w g Hg). intros [= <- <-]. eauto.
Qed.

Lemma repositioned_kind (l i : option OverlayId) p (ovs : gmap OverlayId Overlay) o k q z :
  ovs !! o = Some (mkOverlay k q z) ->
  exists q', reposition i p (reposition l p ovs) !! o = Some (mkOverlay k q' z).
Proof.
  intros Ho. rewrite lookup_reposition, Ho. case_decide; cbn; eauto.
Qed.

Lemma repositioned_refers w ovs p :
  refers_to_overlays w ->
  ovs = reposition (marker_ (this w)) p (reposition (label_ (this w)) p (overlays (gm w))) ->
  (forall l, label_ (this w) = Some l ->
     exists t q z, ovs !! l = Some (mkOverlay (MapLabel t) q z)) /\
  (forall i, marker_ (this w) = Some i ->
     exists img q z, ovs !! i = Some (mkOverlay (MapIcon img) q z)).
Proof.
  intros [Hl Hm] ->. split.
  - intros l E. destruct (Hl l E) as (t & q & z & Ho).
    destruct (repositioned_kind (label_ (this w)) (marker_ (this w)) p _ _ _ _ _ Ho) as [q' H].
    eauto.
  - intros i E. destruct (Hm i E) as (t & q & z & Ho).
    destruct (repositioned_kind (label_ (this w)) (marker_ (this w)) p _ _ _ _ _ Ho) as [q' H].
    eauto.
Qed.

(** Every reachable state refers to overlays that exist. *)
Lemma Reach_overlays a w : Reach a w -> refers_to_overlays w.
Proof.
  induction 1 as [w Hc | w w' tr HR IH He | a w w' tr HR IH He | a w v w' tr HR IH He
                 | a w g w' tr HR IH He | a w g shp w' tr HR IH He | a w s w' tr HR IH He].
  - destruct Hc as [[options Ht] _]. unfold refers_to_overlays. rewrite Ht. cbn.
    split; discriminate.
  - destruct (activate_inv_eval _ _ _ He) as (g & Hg & -> & _).
    destruct (Reach_inv _ _ HR) as (_ & Hl & Hm & _).
    unfold refers_to_overlays, activated, new_label, new_marker, after_marker.
    cbn. rewrite Hl, Hm.
    destruct (label_source w), (marker_source w); cbn; split; intros ? [= <-];
      rewrite ?lookup_insert_eq; eauto;
      rewrite lookup_insert_ne by lia; rewrite lookup_insert_eq; eauto.
  - rewrite deactivate_eval in He. injection He as <- <-.
    split; cbn; discriminate.
  - destruct (setVisible_cases w v) as [E | [tr' E]]; rewrite E in He;
      injection He as <- <-; [exact IH|].
    destruct IH as [Hl Hm]. split; cbn; [apply Hl | apply Hm].
  - pose proof (Reach_inv _ _ HR) as Hi. destruct a.
    + rewrite (Feature_setGeometry_active _ _ Hi) in He.
      destruct g as [| |g].
      1,2: apply (f_equal result) in He;
           rewrite handleGeometryReplace_no_object in He by (by crush_world w);
           discriminate He.
      destruct Hi as (m & k & kr & g0 & Hm & Hk & Hg & Hne & Hlt & Hlt' & Hs & Hl & Ha & Hv).
      rewrite (handleGeometryReplace_eval _ m k g) in He.
      * injection He as <- <-. cbn.
        eapply (repositioned_refers w); [exact IH | reflexivity].
      * by crush_world w.
      * by crush_world w.
      * crush_world w. cbn in *. rewrite Hl. apply (keys_both k kr g0 _ Hs).
      * by crush_world w.
      * crush_world w. cbn in *. apply (no_change_listener_left k kr g0 _ Hs g Hne).
    + rewrite (Feature_setGeometry_inactive _ _ Hi) in He. injection He as <- <-.
      destruct IH as [Hl Hm]. split; cbn; [apply Hl | apply Hm].
  - pose proof (Reach_inv _ _ HR) as Hi. destruct a.
    + pose proof Hi as (m & k & kr & g0 & Hm & Hk & Hg & _).
      destruct (decide (g = g0)) as [-> | Hd].
      * rewrite (Geometry_setShape_current _ _ _ Hi Hg) in He.
        rewrite (handleGeometryChange_eval _ m g0) in He by (by crush_world w).
        injection He as <- <-. cbn.
        eapply (repositioned_refers w); [exact IH | reflexivity].
      * rewrite (Geometry_setShape_stale _ _ _ _ Hi Hg Hd) in He. injection He as <- <-.
        destruct IH as [Hl Hm']. split; cbn; [apply Hl | apply Hm'].
    + rewrite (Geometry_setShape_inactive _ _ _ Hi) in He. injection He as <- <-.
      destruct IH as [Hl Hm]. split; cbn; [apply Hl | apply Hm].
  - injection He as <- <-. destruct IH as [Hl Hm]. split; cbn; [apply Hl | apply Hm].
Qed.

(** ** The replace handler in the states the claims leave out *)

Lemma indexOf_from_absent keys k i :
  ~ In k keys -> indexOf_from keys k i = (-1)%Z.
Proof.
  revert i. induction keys as [|x rest IH]; intros i Hn; [reflexivity|].
  change (indexOf_from (x :: rest) k i)
    with (if Nat.eqb x k then i else indexOf_from rest k (i + 1)%Z).
  destruct (Nat.eqb_spec x k) as [->|Hne].
  - destruct Hn. by left.
  - apply IH. intros H. apply Hn. by right.
Qed.

(** The geometry attribute holds undefined or null: the handler throws
    after it removed the listener of its key and spliced [listenerKeys]. *)
Lemma handleGeometryReplace_undefined_eval w k :
  geometryChangeKey_ (this w) = Some k ->
  is_object (feat_geometry (ol w)) = false ->
  handleGeometryReplace_ w =
  mkOut (Throw TypeError)
    (mkWorld
       (set_listenerKeys
          (splice1 (listenerKeys (this w)) (indexOf_from (listenerKeys (this w)) k 0))
          (this w))
       (set_subs (drop_key k (subs (ol w))) (ol w))
       (gm w) (next_id w))
    [].
Proof.
  crush_world w. cbn [this ol geometryChangeKey_ feat_geometry].
  intros -> Hg. destruct fg; [| | discriminate Hg]; run; reflexivity.
Qed.

(** The handler's key is not in [listenerKeys]: [splice] takes the last
    registered key out instead. *)
Lemma handleGeometryReplace_unregistered w m k g :
  gmapFeature_ (this w) = Some m ->
  geometryChangeKey_ (this w) = Some k ->
  ~ In k (listenerKeys (this w)) ->
  feat_geometry (ol w) = Obj g ->
  findListener (TGeometry g) HGeometryChange (drop_key k (subs (ol w))) = None ->
  let k' := next_id w in
  let geo := createFeatureGeometry (shapes (ol w) g) in
  let p := createLatLng (getCenterOf (shapes (ol w) g)) in
  handleGeometryReplace_ w =
  mkOut (Ok tt)
    (mkWorld
       (set_listenerKeys (splice1 (listenerKeys (this w)) (-1) ++ [k'])
          (set_geometryChangeKey_ (Some k') (this w)))
       (set_subs (drop_key k (subs (ol w)) ++ [mkSub k' (TGeometry g) HGeometryChange])
          (ol w))
       (set_overlays
          (reposition (marker_ (this w)) p (reposition (label_ (this w)) p (overlays (gm w))))
          (set_mirror_geometry (<[m := geo]> (mirror_geometry (gm w))) (gm w)))
       (S (next_id w)))
    (FeatureSetGeometry m geo
       :: position_calls (label_ (this w)) p ++ position_calls (marker_ (this w)) p).
Proof.
  crush_world w.
  cbn [this ol gmapFeature_ geometryChangeKey_ listenerKeys feat_geometry subs].
  intros -> -> Hn -> Hf.
  destruct (listen_new _ _ _ nid Hf) as (Ek & Es & En).
  destruct mk, lb; run_on; rewrite Ek, Es, En, (indexOf_from_absent _ _ _ Hn);
    reflexivity.
Qed.

(** The handler on a herald without data feature: it resubscribes, then the
    change handler throws. *)
Lemma handleGeometryReplace_no_mirror w g :
  gmapFeature_ (this w) = None ->
  feat_geometry (ol w) = Obj g ->
  result (handleGeometryReplace_ w) = Throw TypeError.
Proof.
  crush_world w. cbn [this ol gmapFeature_ feat_geometry].
  intros -> ->. destruct gk; run_on; reflexivity.
Qed.

Lemma only_the_replace_listener kr g :
  filter (fun s => Target_eqb (sub_target s) (TGeometry g) = true)
    [mkSub kr TFeature HGeometryReplace] = [].
Proof. reflexivity. Qed.

(** A replacement by a geometry object, on an active herald. *)
Lemma replace_on_active w g' :
  Reach true w ->
  exists m k w' tr,
    gmapFeature_ (this w) = Some m /\
    geometryChangeKey_ (this w) = Some k /\
    Feature_setGeometry (Obj g') w = mkOut (Ok tt) w' tr /\
    Reach true w' /\
    feat_geometry (ol w') = Obj g' /\
    gmapFeature_ (this w') = Some m.
Proof.
  intros HR. pose proof (Reach_inv _ _ HR) as Hi.
  pose proof Hi as (m & k & kr & g0 & Hm & Hk & Hg & Hne & Hlt & Hlt' & Hs & Hl & Ha & Hv).
  assert (He : Feature_setGeometry (Obj g') w =
               handleGeometryReplace_ (upd_ol (set_feat_geometry (Obj g')) w))
    by apply (Feature_setGeometry_active _ _ Hi).
  rewrite (handleGeometryReplace_eval _ m k g') in He; cycle 1.
  { by crush_world w. } { by crush_world w. }
  { crush_world w. cbn in *. rewrite Hl. apply (keys_both k kr g0 _ Hs). }
  { by crush_world w. }
  { crush_world w. cbn in *. apply (no_change_listener_left k kr g0 _ Hs g' Hne). }
  eexists m, k, _, _. split; [exact Hm|]. split; [exact Hk|]. split; [exact He|].
  split; [exact (Reach_setGeometry _ _ _ _ _ HR He)|].
  split; by crush_world w.
Qed.

(** The state a failed replacement leaves. *)
Lemma failed_replace_on_active w :
  Reach true w ->
  exists (m : MirrorId) (k kr : Key) (g0 : GeomId),
    gmapFeature_ (this w) = Some m /\
    geometryChangeKey_ (this w) = Some k /\
    k <> kr /\ k < next_id w /\ kr < next_id w /\
    Feature_setGeometry Undefined w =
    mkOut (Throw TypeError)
      (mkWorld (set_listenerKeys [kr] (this w))
         (set_subs [mkSub kr TFeature HGeometryReplace] (set_feat_geometry Undefined (ol w)))
         (gm w) (next_id w))
      [].
Proof.
  intros HR. pose proof (Reach_inv _ _ HR) as Hi.
  pose proof Hi as (m & k & kr & g0 & Hm & Hk & Hg & Hne & Hlt & Hlt' & Hs & Hl & Ha & Hv).
  exists m, k, kr, g0. repeat (split; [done|]).
  rewrite (Feature_setGeometry_active _ _ Hi).
  rewrite (handleGeometryReplace_undefined_eval _ k) by (by crush_world w).
  crush_world w. cbn in *. subst lk.
  rewrite (splice1_indexOf_from _ _ (keys_both k kr g0 _ Hs)).
  rewrite (drop_key_two k kr g0 _ Hs Hne), (remove_first_two k kr g0 _ Hs Hne).
  reflexivity.
Qed.

(** ** More about listeners *)

(** X2. In every state of an active herald exactly two listeners exist: one
    on 'change' of the geometry object the feature holds now, under the
    key stored in [geometryChangeKey_], and one on the feature's geometry
    attribute; [listenerKeys] holds their two keys, in the order of the
    listeners.  Replacing the geometry any number of times does not make
    the list grow. *)
Theorem X2_listeners_of_active_herald (w : World) :
  Reach true w ->
  exists (k kr : Key) (g : GeomId),
    feat_geometry (ol w) = Obj g /\
    geometryChangeKey_ (this w) = Some k /\
    k <> kr /\
    (forall s, In s (subs (ol w)) <->
       s = mkSub k (TGeometry g) HGeometryChange \/
       s = mkSub kr TFeature HGeometryReplace) /\
    length (subs (ol w)) = 2 /\
    listenerKeys (this w) = map sub_key (subs (ol w)).
Proof.
  intros HR.
  destruct (Reach_inv _ _ HR)
    as (m & k & kr & g & Hm & Hk & Hg & Hne & Hlt & Hlt' & Hs & Hl & Ha & Hv).
  exists k, kr, g. repeat (split; [done|]).
  rewrite Hl. destruct Hs as [-> | ->]; cbn;
    (split; [intros s; naive_solver | split; reflexivity]).
Qed.

(** X3. On an active herald, a mutation of the geometry object the feature
    holds returns normally, gives the data feature the converted new
    coordinates, and moves the label and the marker, when they exist, to
    the new center, keeping their kind and draw index; the herald's fields,
    the data layer and the overlays on the map stay as they were. *)
Theorem X3_mutation_of_current_geometry (w : World) (g : GeomId) (shp : Shape) :
  Reach true w -> feat_geometry (ol w) = Obj g ->
  exists (m : MirrorId) (w' : World) (tr : list Call),
    gmapFeature_ (this w) = Some m /\
    Geometry_setShape g shp w = mkOut (Ok tt) w' tr /\
    mirror_geometry (gm w') !! m = Some (createFeatureGeometry shp) /\
    (forall o, label_ (this w) = Some o \/ marker_ (this w) = Some o ->
       exists ov0,
         overlays (gm w) !! o = Some ov0 /\
         overlays (gm w') !! o =
           Some (mkOverlay (ov_kind ov0) (createLatLng (getCenterOf shp)) (ov_index ov0))) /\
    this w' = this w /\
    data_layer (gm w') = data_layer (gm w) /\
    on_map (gm w') = on_map (gm w).
Proof.
  intros HR Hg. pose proof (Reach_inv _ _ HR) as Hi.
  destruct (Reach_overlays _ _ HR) as [Hlab Hmar].
  pose proof Hi as (m & k & kr & g0 & Hm & _).
  eexists m, _, _. split; [exact Hm|].
  rewrite (Geometry_setShape_current _ _ _ Hi Hg).
  rewrite (handleGeometryChange_eval _ m g) by (by crush_world w).
  split; [reflexivity|].
  assert (Hshp : shapes (ol (reshape g shp w)) g = shp)
    by (crush_world w; cbn; by rewrite Nat.eqb_refl).
  rewrite Hshp.
  split; [crush_world w; cbn; apply lookup_insert_eq|].
  split; [| by crush_world w].
  intros o Ho.
  assert (Hex : exists ov0, overlays (gm w) !! o = Some ov0).
  { destruct Ho as [Ho | Ho].
    - destruct (Hlab o Ho) as (? & ? & ? & ->). eauto.
    - destruct (Hmar o Ho) as (? & ? & ? & ->). eauto. }
  destruct Hex as [ov0 Hov]. exists ov0. split; [exact Hov|].
  crush_world w. cbn in *. rewrite lookup_reposition.
  rewrite decide_True by exact Ho. by rewrite Hov.
Qed.

(** X4. On an active herald, a mutation of a geometry object other than the
    one the feature holds now reaches no listener: nothing changes but that
    object's coordinates, and no call is made.  This holds in particular
    for the old geometry object after a replacement. *)
Theorem X4_mutation_of_detached_geometry (w : World) (g g' : GeomId) (shp : Shape) :
  Reach true w -> feat_geometry (ol w) = Obj g -> g' <> g ->
  Geometry_setShape g' shp w = mkOut (Ok tt) (reshape g' shp w) [] /\
  exists (w1 : World) (tr : list Call),
    Feature_setGeometry (Obj g') w = mkOut (Ok tt) w1 tr /\
    Geometry_setShape g shp w1 = mkOut (Ok tt) (reshape g shp w1) [].
Proof.
  intros HR Hg Hne. split.
  - apply (Geometry_setShape_stale _ g); [by apply (Reach_inv true) | done | done].
  - destruct (replace_on_active w g' HR) as (m & k & w1 & tr & _ & _ & He & HR1 & Hg1 & _).
    exists w1, tr. split; [exact He|].
    apply (Geometry_setShape_stale _ g'); [by apply (Reach_inv true) | done | congruence].
Qed.

(** X5. What the geometry-change handler does, by the geometry the feature
    holds.  Undefined: it fails with a PreconditionError.  A geometry
    object: it fails only when [gmapFeature_] is null, with a TypeError,
    and returns normally otherwise.  Null: the assertion lets it pass; the
    handler fails with a TypeError when [gmapFeature_] is null, and
    otherwise calls the conversion functions with null: an exception of
    [createFeatureGeometry] ends it before anything changed; when that one
    answers, the data feature gets its answer, and an exception of
    [getCenterOf] ends the handler if there is a label or a marker to
    place.  Wherever the handler fails before [setGeometry], it has left
    every object as it was and made no call. *)
Theorem X5_change_handler_failures (w : World) :
  match feat_geometry (ol w), gmapFeature_ (this w) with
  | Undefined, _ => handleGeometryChange_ w = mkOut (Throw PreconditionError) w []
  | Null, None | Obj _, None => handleGeometryChange_ w = mkOut (Throw TypeError) w []
  | Obj _, Some _ => result (handleGeometryChange_ w) = Ok tt
  | Null, Some m =>
      match createFeatureGeometry_null with
      | Throw e => handleGeometryChange_ w = mkOut (Throw e) w []
      | Ok geo =>
          mirror_geometry (gm (final (handleGeometryChange_ w))) !! m = Some geo /\
          result (handleGeometryChange_ w) =
            match getCenterOf_null, label_ (this w), marker_ (this w) with
            | Throw e, Some _, _ | Throw e, None, Some _ => Throw e
            | _, _, _ => Ok tt
            end
      end
  end.
Proof.
  destruct (feat_geometry (ol w)) as [| |g] eqn:Hg.
  - by apply handleGeometryChange_no_geometry.
  - destruct (gmapFeature_ (this w)) as [m|] eqn:Hm.
    + rewrite (handleGeometryChange_null w m Hm Hg).
      destruct createFeatureGeometry_null as [geo|e]; [|reflexivity].
      destruct getCenterOf_null as [c|e]; cbn [final result gm mirror_geometry];
        (split; [apply lookup_insert_eq|]);
        destruct (label_ (this w)), (marker_ (this w)); reflexivity.
    + apply handleGeometryChange_no_mirror; [by rewrite Hg | done].
  - destruct (gmapFeature_ (this w)) as [m|] eqn:Hm.
    + by rewrite (handleGeometryChange_eval w m g Hm Hg).
    + apply handleGeometryChange_no_mirror; [by rewrite Hg | done].
Qed.

(** X6. On an active herald, setting the feature's geometry to undefined
    makes the replace handler throw a TypeError, after it has removed the
    geometry-change listener and taken its key out of [listenerKeys]: only
    the replace listener and its key are left, [geometryChangeKey_] still
    holds the old key, and the Google Maps side is untouched.  From then
    on no mutation of any geometry object reaches the herald. *)
Theorem X6_replace_by_undefined (w : World) :
  Reach true w ->
  exists (k kr : Key) (w' : World),
    geometryChangeKey_ (this w) = Some k /\
    Feature_setGeometry Undefined w = mkOut (Throw TypeError) w' [] /\
    listenerKeys (this w') = [kr] /\
    subs (ol w') = [mkSub kr TFeature HGeometryReplace] /\
    geometryChangeKey_ (this w') = Some k /\
    k <> kr /\
    gm w' = gm w /\
    forall g shp, Geometry_setShape g shp w' = mkOut (Ok tt) (reshape g shp w') [].
Proof.
  intros HR.
  destruct (failed_replace_on_active w HR)
    as (m & k & kr & g0 & Hm & Hk & Hne & _ & _ & He).
  eexists k, kr, _. split; [exact Hk|]. split; [exact He|].
  split; [by crush_world w|]. split; [by crush_world w|].
  split; [by crush_world w|]. split; [exact Hne|]. split; [by crush_world w|].
  intros g shp. unfold Geometry_setShape. rewrite bind_modify.
  apply dispatch_empty. crush_world w. reflexivity.
Qed.

(** The state after a failed replacement followed by a replacement. *)
Lemma replace_after_failed_replace w g :
  Reach true w ->
  exists (m : MirrorId) (kr : Key),
    gmapFeature_ (this w) = Some m /\
    kr <> next_id w /\
    let geo := createFeatureGeometry (shapes (ol w) g) in
    let p := createLatLng (getCenterOf (shapes (ol w) g)) in
    Feature_setGeometry (Obj g) (final (Feature_setGeometry Undefined w)) =
    mkOut (Ok tt)
      (mkWorld
         (set_listenerKeys [next_id w]
            (set_geometryChangeKey_ (Some (next_id w)) (this w)))
         (set_subs [mkSub kr TFeature HGeometryReplace;
                    mkSub (next_id w) (TGeometry g) HGeometryChange]
            (set_feat_geometry (Obj g) (ol w)))
         (set_overlays
            (reposition (marker_ (this w)) p (reposition (label_ (this w)) p (overlays (gm w))))
            (set_mirror_geometry (<[m := geo]> (mirror_geometry (gm w))) (gm w)))
         (S (next_id w)))
      (FeatureSetGeometry m geo
         :: position_calls (label_ (this w)) p ++ position_calls (marker_ (this w)) p).
Proof.
  intros HR.
  destruct (failed_replace_on_active w HR)
    as (m & k & kr & g0 & Hm & Hk & Hne & Hlt & Hlt' & He).
  rewrite He. cbn [final].
  exists m, kr. split; [exact Hm|]. split; [lia|]. cbn zeta.
  unfold Feature_setGeometry. rewrite bind_modify.
  rewrite (dispatch_single TFeature _ (mkSub kr TFeature HGeometryReplace));
    [| crush_world w; reflexivity
     | crush_world w; cbn; by rewrite Nat.eqb_refl].
  cbn [run_handler sub_handler].
  rewrite (handleGeometryReplace_unregistered _ m k g);
    [| by crush_world w | by crush_world w
     | crush_world w; cbn; intros [?|[]]; congruence | by crush_world w
     | crush_world w; cbn in *; rewrite drop_key_miss by (cbn; congruence);
       reflexivity].
  crush_world w. cbn in *.
  rewrite drop_key_miss by (cbn; congruence). reflexivity.
Qed.

(** X7. After such a failed replacement, setting the feature's geometry to
    a geometry object makes the replace handler return normally and the
    data feature follow again; but its stale key is no longer in
    [listenerKeys], so [splice] takes the key of the replace listener out:
    the list then holds the new geometry-change key only, while the
    replace listener still listens. *)
Theorem X7_replace_after_failed_replace (w : World) (g : GeomId) :
  Reach true w ->
  exists (m : MirrorId) (kr : Key) (w2 : World) (tr : list Call),
    gmapFeature_ (this w) = Some m /\
    Feature_setGeometry (Obj g) (final (Feature_setGeometry Undefined w))
      = mkOut (Ok tt) w2 tr /\
    mirror_geometry (gm w2) !! m = Some (createFeatureGeometry (shapes (ol w) g)) /\
    geometryChangeKey_ (this w2) = Some (next_id w) /\
    listenerKeys (this w2) = [next_id w] /\
    subs (ol w2) = [mkSub kr TFeature HGeometryReplace;
                    mkSub (next_id w) (TGeometry g) HGeometryChange] /\
    kr <> next_id w.
Proof.
  intros HR.
  destruct (replace_after_failed_replace w g HR) as (m & kr & Hm & Hne & He).
  cbn zeta in He. rewrite He.
  eexists m, kr, _, _. split; [exact Hm|]. split; [reflexivity|].
  split; [crush_world w; cbn; apply lookup_insert_eq|].
  repeat (split; [by crush_world w|]). exact Hne.
Qed.

(** X8. [deactivate()] after that removes the listeners of the keys in
    [listenerKeys] only, so the replace listener survives it: the herald is
    inactive, its [gmapFeature_] is null, and the next replacement of the
    feature's geometry runs the replace handler, which throws a
    TypeError. *)
Theorem X8_listener_left_after_deactivate (w : World) (g : GeomId) :
  Reach true w ->
  exists (kr : Key) (w3 : World) (tr : list Call),
    deactivate (final (Feature_setGeometry (Obj g) (final (Feature_setGeometry Undefined w))))
      = mkOut (Ok tt) w3 tr /\
    listenerKeys (this w3) = [] /\
    gmapFeature_ (this w3) = None /\
    subs (ol w3) = [mkSub kr TFeature HGeometryReplace] /\
    forall g', result (Feature_setGeometry (Obj g') w3) = Throw TypeError.
Proof.
  intros HR.
  destruct (replace_after_failed_replace w g HR) as (m & kr & Hm & Hne & He).
  cbn zeta in He. rewrite He. cbn [final].
  rewrite deactivate_eval.
  assert (Hs : forall n, kr <> n ->
                 drop_key n [mkSub kr TFeature HGeometryReplace;
                             mkSub n (TGeometry g) HGeometryChange]
                 = [mkSub kr TFeature HGeometryReplace]).
  { intros n Hn. rewrite drop_key_miss by (cbn; congruence). by rewrite drop_key_hit. }
  eexists kr, _, _. split; [reflexivity|].
  split; [reflexivity|]. split; [reflexivity|].
  split; [crush_world w; cbn in *; by rewrite Hs|].
  intros g'. unfold Feature_setGeometry. rewrite bind_modify.
  rewrite (dispatch_single TFeature _ (mkSub kr TFeature HGeometryReplace));
    [| crush_world w; cbn in *; by rewrite Hs
     | crush_world w; cbn in *; rewrite Hs by done; cbn; by rewrite Nat.eqb_refl].
  cbn [run_handler sub_handler].
  apply (handleGeometryReplace_no_mirror _ g'); by crush_world w.
Qed.

(** ** More about activation, visibility and teardown *)

Lemma new_key_above w : next_id w < new_key w.
Proof.
  unfold new_key, after_marker.
  destruct (label_source w), (marker_source w); lia.
Qed.

Lemma attach_both (l i : option OverlayId) (om : gset OverlayId) o :
  l = Some o \/ i = Some o -> o ∈ attach l (attach i om).
Proof. destruct l, i; cbn; intros [|]; simplify_eq; set_solver. Qed.

(** X1. [activate()] on a hidden herald whose feature has a geometry makes
    the data feature and the overlays but puts nothing on the data layer
    or on the map: it calls neither [data_.add] nor [setMap].  A following
    [setVisible(true)] puts the data feature it made into the data layer
    and the label and marker the herald refers to on the map. *)
Theorem X1_activation_of_hidden_herald (w : World) (g : GeomId) :
  feat_geometry (ol w) = Obj g -> visible_ (this w) = false ->
  result (activate w) = Ok tt /\
  existsb shows_or_hides (emitted (activate w)) = false /\
  data_layer (gm (final (activate w))) = data_layer (gm w) /\
  on_map (gm (final (activate w))) = on_map (gm w) /\
  gmapFeature_ (this (final (activate w))) = Some (next_id w) /\
  result (setVisible true (final (activate w))) = Ok tt /\
  next_id w ∈ data_layer (gm (final (setVisible true (final (activate w))))) /\
  (forall o, label_ (this (final (activate w))) = Some o \/
             marker_ (this (final (activate w))) = Some o ->
     o ∈ on_map (gm (final (setVisible true (final (activate w)))))).
Proof.
  intros Hg Hv. rewrite (activate_eval w g Hg). cbn [result final emitted].
  split; [reflexivity|].
  split.
  { unfold activate_calls. rewrite Hv.
    destruct (createStyle _ _ _), (marker_source w), (label_source w); reflexivity. }
  split; [unfold activated; cbn; by rewrite Hv|].
  split; [unfold activated; cbn; by rewrite Hv|].
  split; [reflexivity|].
  rewrite setVisible_show by (unfold activated; cbn; exact Hv).
  cbn [result final].
  split; [reflexivity|].
  split.
  { unfold activated, with_feature; cbn.
    apply elem_of_union. left. by apply elem_of_singleton. }
  intros o Ho.
  change (o ∈ attach (label_ (this (activated g w)))
                (attach (marker_ (this (activated g w))) (on_map (gm (activated g w))))).
  by apply attach_both.
Qed.


Lemma handlers_keep_flag_and_layer w :
  data_layer (gm (final (handleGeometryChange_ w))) = data_layer (gm w) /\
  visible_ (this (final (handleGeometryChange_ w))) = visible_ (this w) /\
  data_layer (gm (final (handleGeometryReplace_ w))) = data_layer (gm w) /\
  visible_ (this (final (handleGeometryReplace_ w))) = visible_ (this w).
Proof.
  crush_world w.
  unfold handleGeometryReplace_, handleGeometryChange_, feature_geometry_of, center_of.
  destruct createFeatureGeometry_null, getCenterOf_null;
    destruct gk, fg, gf, mk, lb; run_on; repeat split.
Qed.


(** X11. Every overlay [activate()] makes is placed at the converted center
    of the geometry the feature holds at that moment; the herald then
    refers to it, it is on the map exactly when the herald is visible, and
    it is an overlay object of that kind, position and draw index. *)
Theorem X11_overlays_placed_at_center (w : World) (g : GeomId) :
  feat_geometry (ol w) = Obj g ->
  let p := createLatLng (getCenterOf (shapes (ol w) g)) in
  let w1 := final (activate w) in
  let tr := emitted (activate w) in
  (forall o img q z, In (CreateMapIcon o img q z) tr ->
     q = p /\
     marker_ (this w1) = Some o /\
     overlays (gm w1) !! o = Some (mkOverlay (MapIcon img) p z) /\
     (In (OverlaySetMap o true) tr <-> visible_ (this w) = true)) /\
  (forall o t q z, In (CreateLabel o t q z) tr ->
     q = p /\
     label_ (this w1) = Some o /\
     overlays (gm w1) !! o = Some (mkOverlay (MapLabel t) p z) /\
     (In (OverlaySetMap o true) tr <-> visible_ (this w) = true)).
Proof.
  intros Hg p w1 tr. subst p w1 tr.
  rewrite (activate_eval w g Hg). cbn [final emitted].
  unfold activated, activate_calls, new_label, new_marker, after_marker. cbn.
  destruct (visible_ (this w)), (createStyle _ _ _),
    (marker_source w) as [img0|], (label_source w) as [t0|]; cbn.
  all: split; intros o x q z Hin.
  all: repeat (destruct Hin as [Hin | Hin];
               [try discriminate Hin; injection Hin as <- <- <- <- |]).
  all: try (destruct Hin; fail).
  all: split; [reflexivity|]; split; [reflexivity|].
  all: split;
    [ rewrite ?lookup_insert_eq; try reflexivity;
      rewrite lookup_insert_ne by lia; by rewrite lookup_insert_eq |].
  all: split; [try done | intros Hv; try discriminate Hv; cbn; tauto].
  all: intros H; exfalso;
       repeat (destruct H as [H | H]; [try discriminate H; injection H; lia|]);
       destruct H.
Qed.

(** X12. [activate()] overrides the style of the data feature it has just
    made exactly when [createStyle] gives a style for the source feature,
    the icon options and the herald's index, and with that style; it
    overrides the style of no other data feature. *)
Theorem X12_style_override (w : World) (g : GeomId) :
  feat_geometry (ol w) = Obj g ->
  (forall f s, In (DataOverrideStyle f s) (emitted (activate w)) <->
     f = Some (next_id w) /\
     createStyle (feat_style (ol w)) (mapIconOptions_ (this w)) (index_ (this w)) = Some s) /\
  (forall x, x <> next_id w ->
     mirror_style (gm (final (activate w))) !! x = mirror_style (gm w) !! x).
Proof.
  intros Hg. rewrite (activate_eval w g Hg). cbn [final emitted]. split.
  - intros f s. unfold activate_calls.
    destruct (createStyle _ _ _) as [s0|], (visible_ (this w)),
      (marker_source w), (label_source w); cbn; split.
    all: try (intros H;
              repeat (destruct H as [H | H];
                      [try discriminate H; injection H as <- <-; by split|]);
              by destruct H).
    all: intros [-> H]; try discriminate H; injection H as <-; tauto.
  - intros x Hx. unfold activated. cbn.
    destruct (createStyle _ _ _); [by rewrite lookup_insert_ne | done].
Qed.

(** X13. Only [setVisible] writes the visibility flag: [activate()],
    [deactivate()] and the two handlers leave it as it is, whether they
    return or throw, and after [setVisible(v)] it is [v].  A herald that is
    hidden, deactivated and activated again is therefore still hidden. *)
Theorem X13_only_setVisible_sets_the_flag (w : World) :
  visible_ (this (final (activate w))) = visible_ (this w) /\
  visible_ (this (final (deactivate w))) = visible_ (this w) /\
  visible_ (this (final (handleGeometryChange_ w))) = visible_ (this w) /\
  visible_ (this (final (handleGeometryReplace_ w))) = visible_ (this w) /\
  (forall v, visible_ (this (final (setVisible v w))) = v) /\
  visible_ (this (final (activate (final (deactivate w))))) = visible_ (this w).
Proof.
  assert (Ha : forall u : World, visible_ (this (final (activate u))) = visible_ (this u)).
  { intros u. destruct (feat_geometry (ol u)) as [| |g] eqn:Hg.
    - rewrite (activate_no_geometry u Hg). crush_world u. by destruct ha.
    - by destruct (activate_null_facts u Hg) as (r & w1 & tr & -> & _ & Hv & _).
    - by rewrite (activate_eval u g Hg). }
  assert (Hd : visible_ (this (final (deactivate w))) = visible_ (this w))
    by (by rewrite deactivate_eval).
  split; [apply Ha|]. split; [exact Hd|].
  split; [apply handlers_keep_flag_and_layer|].
  split; [apply handlers_keep_flag_and_layer|].
  split; [| by rewrite Ha].
  intros v. destruct (setVisible_cases w v) as [E | [tr E]]; rewrite E; [|done].
  cbn. destruct (visible_ (this w)) eqn:Hv, v; try done.
  - rewrite (setVisible_hide _ Hv) in E. by injection E.
  - rewrite (setVisible_show _ Hv) in E. by injection E.
Qed.

(** The next identity never goes down when a listener is registered. *)
Lemma listen_next_ge t h l n : n <= listen_next t h l n.
Proof. unfold listen_next. destruct (findListener t h l); lia. Qed.

Lemma next_with_both_above w g : next_id w < next_with_both g w.
Proof.
  pose proof (new_key_above w).
  pose proof (listen_next_ge (TGeometry g) HGeometryChange (subs (ol w)) (new_key w)).
  pose proof (listen_next_ge TFeature HGeometryReplace
                (subs_with_change g w) (next_with_change g w)).
  unfold next_with_both, next_with_change in *. lia.
Qed.

(** Once [activate] has run, both its listeners are registered: a second
    [activate] is answered their keys and registers nothing. *)
Lemma listeners_of_activated w g :
  change_key g (activated g w) = change_key g w /\
  replace_key g (activated g w) = replace_key g w /\
  subs_with_both g (activated g w) = subs_with_both g w.
Proof.
  assert (Hs : subs (ol (activated g w)) = subs_with_both g w) by reflexivity.
  destruct (findListener_listen (TGeometry g) HGeometryChange (subs (ol w)) (new_key w))
    as (s1 & Hf1 & Hk1).
  fold (subs_with_change g w) in Hf1. fold (change_key g w) in Hk1.
  assert (Hf1' : findListener (TGeometry g) HGeometryChange (subs_with_both g w) = Some s1).
  { unfold subs_with_both. by rewrite findListener_listen_other. }
  destruct (findListener_listen TFeature HGeometryReplace
              (subs_with_change g w) (next_with_change g w)) as (s2 & Hf2 & Hk2).
  fold (subs_with_both g w) in Hf2. fold (replace_key g w) in Hk2.
  assert (E1 : forall n, listen_key (TGeometry g) HGeometryChange (subs_with_both g w) n
                         = change_key g w /\
                       listen_subs (TGeometry g) HGeometryChange (subs_with_both g w) n
                         = subs_with_both g w /\
                       listen_next (TGeometry g) HGeometryChange (subs_with_both g w) n = n).
  { intros n. destruct (listen_again _ _ _ n _ Hf1') as (-> & -> & ->). by rewrite Hk1. }
  assert (E2 : forall n, listen_key TFeature HGeometryReplace (subs_with_both g w) n
                         = replace_key g w /\
                       listen_subs TFeature HGeometryReplace (subs_with_both g w) n
                         = subs_with_both g w /\
                       listen_next TFeature HGeometryReplace (subs_with_both g w) n = n).
  { intros n. destruct (listen_again _ _ _ n _ Hf2) as (-> & -> & ->). by rewrite Hk2. }
  unfold change_key at 1, replace_key at 1, subs_with_both at 1,
    subs_with_change, next_with_change.
  rewrite Hs.
  destruct (E1 (new_key (activated g w))) as (-> & -> & ->).
  destruct (E2 (new_key (activated g w))) as (-> & -> & _).
  done.
Qed.

(** X14. [activate()] does not check that the herald is inactive.  Called
    twice on a visible herald, it makes a second data feature and forgets
    the first; the following [deactivate()] removes the second one only,
    so the first stays in the data layer.  The second call registers no
    listener: [on] answers the keys of the listeners of the first call,
    and these two keys are pushed on [listenerKeys] once more. *)
Theorem X14_second_activate_leaks_first_mirror (w : World) (g : GeomId) :
  feat_geometry (ol w) = Obj g -> visible_ (this w) = true ->
  exists (m1 m2 : MirrorId) (k kr : Key) (w1 w2 w3 : World) (tr1 tr2 tr3 : list Call),
    activate w = mkOut (Ok tt) w1 tr1 /\
    activate w1 = mkOut (Ok tt) w2 tr2 /\
    deactivate w2 = mkOut (Ok tt) w3 tr3 /\
    gmapFeature_ (this w1) = Some m1 /\
    gmapFeature_ (this w2) = Some m2 /\
    m1 <> m2 /\
    ~ In (DataRemove (Some m1)) tr3 /\
    m1 ∈ data_layer (gm w3) /\
    listenerKeys (this w1) = listenerKeys (this w) ++ [k; kr] /\
    listenerKeys (this w2) = listenerKeys (this w1) ++ [k; kr] /\
    subs (ol w2) = subs (ol w1).
Proof.
  intros Hg Hv.
  assert (Hg1 : feat_geometry (ol (activated g w)) = Obj g) by exact Hg.
  pose proof (next_with_both_above w g) as Hk.
  destruct (listeners_of_activated w g) as (Ec & Er & Es).
  eexists (next_id w), (next_with_both g w), (change_key g w), (replace_key g w),
    _, _, _, _, _, _.
  split; [apply (activate_eval w g Hg)|].
  split; [apply (activate_eval _ g Hg1)|].
  split; [apply deactivate_eval|].
  split; [reflexivity|]. split; [reflexivity|]. split; [lia|].
  split.
  { cbn. intros [H | H]; [injection H; lia|].
    apply in_app_or in H as [H | H];
      match type of H with
      | In _ (setMap_calls ?o _) => destruct o; cbn in H
      end;
      repeat (destruct H as [H | H]; [discriminate H|]); destruct H. }
  split.
  { cbn. rewrite Hv. apply elem_of_difference. split; [set_solver|].
    intros H. apply elem_of_singleton in H. lia. }
  split; [reflexivity|].
  split; [cbn; by rewrite Ec, Er|].
  cbn. exact Es.
Qed.

Lemma redetach (l i : option OverlayId) (om : gset OverlayId) :
  (forall o, l = Some o \/ i = Some o -> o ∉ om) ->
  detach l (detach i (attach l (attach i om))) = om.
Proof.
  intros H. apply set_eq. intros x.
  destruct l as [l|], i as [i|]; cbn;
    try (pose proof (H l (or_introl eq_refl)));
    try (pose proof (H i (or_intror eq_refl)));
    try (destruct (decide (x = l)) as [->|]);
    try (destruct (decide (x = i)) as [->|]); set_solver.
Qed.

(** X15. On a hidden herald whose data feature is not in the data layer
    and whose label and marker are not on the map, [setVisible(true)]
    followed by [setVisible(false)] gives back the very state it started
    from, without making any object. *)
Theorem X15_show_then_hide_roundtrip (w : World) :
  visible_ (this w) = false ->
  (forall m, gmapFeature_ (this w) = Some m -> m ∉ data_layer (gm w)) ->
  (forall o, label_ (this w) = Some o \/ marker_ (this w) = Some o -> o ∉ on_map (gm w)) ->
  exists (w1 : World) (tr1 tr2 : list Call),
    setVisible true w = mkOut (Ok tt) w1 tr1 /\
    visible_ (this w1) = true /\
    setVisible false w1 = mkOut (Ok tt) w tr2 /\
    existsb is_creation (tr1 ++ tr2) = false.
Proof.
  intros Hv Hm Ho.
  eexists _, _,
    (DataRemove (gmapFeature_ (this w))
       :: setMap_calls (marker_ (this w)) false ++ setMap_calls (label_ (this w)) false).
  split; [by apply setVisible_show|].
  split; [reflexivity|].
  rewrite setVisible_hide by reflexivity.
  crush_world w. cbn in *. subst vis.
  split; [|by destruct mk, lb].
  unfold set_on_map, set_data_layer. cbn.
  rewrite redetach by exact Ho.
  replace (without gf (with_feature gf dl)) with dl; [reflexivity|].
  destruct gf as [m|]; cbn; [|done]. specialize (Hm m eq_refl). set_solver.
Qed.

(** X16. An inactive herald has no listener: replacing the feature's
    geometry, also by undefined or null, or mutating any geometry object returns
    normally, makes no call and changes neither the herald nor the Google
    Maps side. *)
Theorem X16_inactive_herald_is_deaf (w : World) :
  Reach false w ->
  (forall og, Feature_setGeometry og w =
              mkOut (Ok tt) (mkWorld (this w) (set_feat_geometry og (ol w)) (gm w) (next_id w)) []) /\
  (forall g shp, Geometry_setShape g shp w = mkOut (Ok tt) (reshape g shp w) [] /\
                 this (reshape g shp w) = this w /\ gm (reshape g shp w) = gm w).
Proof.
  intros HR. pose proof (Reach_inv _ _ HR) as Hi. split.
  - intros og. apply (Feature_setGeometry_inactive _ _ Hi).
  - intros g shp. split; [apply (Geometry_setShape_inactive _ _ _ Hi)|].
    by crush_world w.
Qed.

(** X17. A herald constructed without a [visible] option, or with
    [visible] true, is visible; its first [activate()], on a feature that
    has a geometry, puts the data feature it makes into the data layer, and
    the label and the marker it makes on the map, each with one call. *)
Theorem X17_activation_of_new_visible_herald (w : World) (options : FeatureOptions)
    (g : GeomId) :
  this w = Feature_new options ->
  opt_visible options <> Some false ->
  feat_geometry (ol w) = Obj g ->
  exists (w1 : World) (tr : list Call),
    activate w = mkOut (Ok tt) w1 tr /\
    visible_ (this w1) = true /\
    gmapFeature_ (this w1) = Some (next_id w) /\
    In (DataAdd (Some (next_id w))) tr /\
    next_id w ∈ data_layer (gm w1) /\
    (forall o, label_ (this w1) = Some o \/ marker_ (this w1) = Some o ->
       In (OverlaySetMap o true) tr /\ o ∈ on_map (gm w1)).
Proof.
  intros Ht Hopt Hg.
  assert (Hv : visible_ (this w) = true).
  { rewrite Ht. cbn. destruct (opt_visible options) as [[|]|]; congruence. }
  assert (Hl : label_ (this w) = None) by (by rewrite Ht).
  assert (Hm : marker_ (this w) = None) by (by rewrite Ht).
  eexists _, _. split; [apply (activate_eval w g Hg)|].
  split; [exact Hv|]. split; [reflexivity|].
  split; [unfold activate_calls; rewrite Hv; right; by left|].
  split.
  { unfold activated. cbn. rewrite Hv. apply elem_of_union. left. by apply elem_of_singleton. }
  intros o Ho.
  unfold activated, activate_calls, new_label, new_marker, after_marker in *.
  cbn in *. rewrite Hv, Hl, Hm in *.
  destruct (createStyle _ _ _), (marker_source w), (label_source w); cbn in *;
    destruct Ho as [Ho | Ho]; simplify_eq; (split; [cbn; tauto | set_solver]).
Qed.

End Properties.

(** * The concrete feature at work *)

#[global] Existing Instance plane.

Lemma w_new_reach : Reach false w_new.
Proof. apply Reach_new. split; [eexists; reflexivity | reflexivity]. Qed.

Lemma w_active_reach : Reach true w_active.
Proof.
  apply (Reach_activate w_new w_active (emitted (activate w_new)) w_new_reach).
  vm_compute. reflexivity.
Qed.

Example activate_w_new :
  this w_active = mkBridge 7 (mkMapIconOptions (Some true)) true
                    (Some 1) (Some 3) (Some 2) (Some 4) [4; 5] true /\
  subs (ol w_active) = [mkSub 4 (TGeometry 0) HGeometryChange;
                        mkSub 5 TFeature HGeometryReplace] /\
  emitted (activate w_new) =
    [CreateFeature 1; DataAdd (Some 1); DataOverrideStyle (Some 1) 7%Z;
     CreateMapIcon 2 (IconImage 1) (1, 1)%Z 7; OverlaySetMap 2 true;
     CreateLabel 3 2 (1, 1)%Z 7; OverlaySetMap 3 true].
Proof. vm_compute. repeat split. Qed.

(** "feature geometry center (1,1), style has text -> one label overlay at
    (1,1); after the geometry's center moves to (2,2) the label is at
    (2,2)". *)
Example label_follows_geometry :
  overlays (gm w_active) !! 3 = Some (mkOverlay (MapLabel 2) (1, 1)%Z 7) /\
  overlays (gm (final (Geometry_setShape 0 (2, 2)%Z w_active))) !! 3
    = Some (mkOverlay (MapLabel 2) (2, 2)%Z 7) /\
  mirror_geometry (gm (final (Geometry_setShape 0 (2, 2)%Z w_active))) !! 1
    = Some (2, 2)%Z.
Proof. vm_compute. repeat split. Qed.

(** "feature with point geometry at (0,0), style = null: activate()
    creates a mirror feature, no overlays, visible = true; setVisible(false)
    removes only the mirror feature; deactivate() then makes no call on an
    overlay and releases the mirror feature". *)
Example point_without_style :
  let a := activate w_point in
  let h := setVisible false (final a) in
  let d := deactivate (final h) in
  emitted a = [CreateFeature 1; DataAdd (Some 1)] /\
  this (final a) = mkBridge 7 (mkMapIconOptions None) true
                     (Some 1) None None (Some 2) [2; 3] true /\
  emitted h = [DataRemove (Some 1)] /\
  emitted d = [DataRemove (Some 1)] /\
  this (final d) = mkBridge 7 (mkMapIconOptions None) false
                     None None None (Some 2) [] false /\
  subs (ol (final d)) = [].
Proof. vm_compute. repeat split. Qed.

(** A key that is not in the array makes [splice] drop the last key. *)
Example splice_of_absent_key :
  splice1 [4; 5] (indexOf [4; 5] (Some 9)) = [4] /\
  splice1 [4; 5] (indexOf [4; 5] None) = [4].
Proof. vm_compute. split; reflexivity. Qed.

(** * The hypotheses of the claims hold of the concrete feature *)

Lemma C1_witness :
  Reach true w_active /\
  (exists (m : MirrorId) (k : Key) (w' : World) (tr : list Call),
    gmapFeature_ (this w_active) = Some m /\
    geometryChangeKey_ (this w_active) = Some k /\
    Feature_setGeometry (Obj 9) w_active = mkOut (Ok tt) w' tr /\
    (* the old key is unregistered and its listener removed *)
    listenerKeys (this w') = remove_first k (listenerKeys (this w_active)) ++ [next_id w_active] /\
    ~ In k (listenerKeys (this w')) /\
    listening k (subs (ol w')) = false /\
    (* the new key listens to the new geometry *)
    geometryChangeKey_ (this w') = Some (next_id w_active) /\
    In (mkSub (next_id w_active) (TGeometry 9) HGeometryChange) (subs (ol w')) /\
    (* the geometry-change handler ran once *)
    tr = FeatureSetGeometry m (createFeatureGeometry (shapes (ol w_active) 9))
           :: position_calls (label_ (this w_active)) (createLatLng (getCenterOf (shapes (ol w_active) 9)))
           ++ position_calls (marker_ (this w_active)) (createLatLng (getCenterOf (shapes (ol w_active) 9))) /\
    mirror_geometry (gm w') !! m = Some (createFeatureGeometry (shapes (ol w_active) 9)) /\
    (* mutating the new geometry still updates the data feature *)
    forall shp, exists w'' tr',
      Geometry_setShape 9 shp w' = mkOut (Ok tt) w'' tr' /\
      gmapFeature_ (this w'') = Some m /\
      mirror_geometry (gm w'') !! m = Some (createFeatureGeometry shp)).
Proof.
  split; [exact w_active_reach|].
  apply (C1_geometry_replace_resubscribes w_active 9). exact w_active_reach.
Defined.

Lemma C2_witness :
  feat_geometry (ol w_new) = Obj 0 /\
  (exists (w1 : World) (tr1 : list Call) (w2 : World) (tr2 : list Call) (m : MirrorId),
    activate w_new = mkOut (Ok tt) w1 tr1 /\
    deactivate w1 = mkOut (Ok tt) w2 tr2 /\
    listenerKeys (this w2) = [] /\
    (forall s, s ∈ subs (ol w2) -> sub_key s ∉ listenerKeys (this w1)) /\
    gmapFeature_ (this w1) = Some m /\
    In (DataRemove (Some m)) tr2 /\
    (m ∉ data_layer (gm w2)) /\
    gmapFeature_ (this w2) = None /\
    label_ (this w2) = None /\
    marker_ (this w2) = None).
Proof.
  split; [reflexivity|].
  apply (C2_activate_then_deactivate w_new 0). reflexivity.
Defined.



Lemma C4_witness :
  Reach true w_active /\ visible_ (this w_active) = true /\
  (exists (m : MirrorId) (w1 : World) (tr1 tr2 : list Call),
    gmapFeature_ (this w_active) = Some m /\
    setVisible false w_active = mkOut (Ok tt) w1 tr1 /\
    visible_ (this w1) = false /\
    (m ∉ data_layer (gm w1)) /\
    (forall o, label_ (this w_active) = Some o \/ marker_ (this w_active) = Some o ->
               o ∉ on_map (gm w1)) /\
    gmapFeature_ (this w1) = Some m /\
    label_ (this w1) = label_ (this w_active) /\
    marker_ (this w1) = marker_ (this w_active) /\
    setVisible true w1 = mkOut (Ok tt) w_active tr2 /\
    m ∈ data_layer (gm w_active) /\
    (forall o, label_ (this w_active) = Some o \/ marker_ (this w_active) = Some o ->
               o ∈ on_map (gm w_active)) /\
    existsb is_creation (tr1 ++ tr2) = false).
Proof.
  split; [exact w_active_reach|]. split; [reflexivity|].
  apply (C4_hide_then_show_roundtrip w_active); [exact w_active_reach | reflexivity].
Defined.

Lemma C6_witness :
  Reach true w_active /\
  (exists (m : MirrorId) (g : GeomId) (w' : World) (tr : list Call),
    gmapFeature_ (this w_active) = Some m /\
    feat_geometry (ol w_active) = Obj g /\
    handleGeometryChange_ w_active = mkOut (Ok tt) w' tr /\
    this w' = this w_active /\
    ol w' = ol w_active /\
    next_id w' = next_id w_active /\
    data_layer (gm w') = data_layer (gm w_active) /\
    on_map (gm w') = on_map (gm w_active) /\
    mirror_style (gm w') = mirror_style (gm w_active) /\
    mirror_geometry (gm w') =
      <[m := createFeatureGeometry (shapes (ol w_active) g)]> (mirror_geometry (gm w_active)) /\
    dom (overlays (gm w')) = dom (overlays (gm w_active)) /\
    (forall o,
       overlays (gm w') !! o =
       if decide (label_ (this w_active) = Some o \/ marker_ (this w_active) = Some o)
       then move_overlay (createLatLng (getCenterOf (shapes (ol w_active) g)))
              <$> overlays (gm w_active) !! o
       else overlays (gm w_active) !! o) /\
    existsb is_creation tr = false).
Proof.
  split; [exact w_active_reach|].
  apply (C6_geometry_change_frame w_active). exact w_active_reach.
Defined.

Lemma C7_witness :
  feat_geometry (ol w_new) = Obj 0 /\
  (let tr := emitted (activate w_new) in
  result (activate w_new) = Ok tt /\
  (existsb creates_marker tr = true <->
     exists st i, feat_style (ol w_new) = Some st /\ getImage st = Some (IconImage i) /\
                  useCanvas (mapIconOptions_ (this w_new)) = Some true) /\
  (existsb creates_label tr = true <->
     exists st t, feat_style (ol w_new) = Some st /\ getText st = Some t) /\
  (forall c i, In c tr -> overlay_index_of c = Some i ->
     exists st, feat_style (ol w_new) = Some st /\
       i = match getZIndex st with Some z => z | None => index_ (this w_new) end) /\
  (forall st i t,
     feat_style (ol w_new) = Some st -> getImage st = Some (IconImage i) ->
     getText st = Some t ->
     existsb creates_label tr = true /\
     existsb creates_marker tr =
       match useCanvas (mapIconOptions_ (this w_new)) with Some b => b | None => false end)).
Proof.
  split; [reflexivity|].
  apply (C7_overlays_created_by_activate w_new 0). reflexivity.
Defined.

Lemma C9_witness :
  useCanvas (mapIconOptions_ (this w_plain)) = None /\
  (existsb creates_marker (emitted (activate w_plain)) = false /\
  marker_ (this (final (activate w_plain))) = marker_ (this w_plain)).
Proof.
  split; [reflexivity|].
  apply (C9_useCanvas_undefined_no_marker w_plain). reflexivity.
Defined.

Lemma C10_witness :
  Reach false w_new /\ false <> visible_ (this w_new) /\
  (gmapFeature_ (this w_new) = None /\
  setVisible false w_new =
    mkOut (Ok tt) (upd_this (set_visible_ false) w_new)
      [if false then DataAdd None else DataRemove None]).
Proof.
  split; [exact w_new_reach|]. split; [discriminate|].
  apply (C10_setVisible_inactive_passes_null w_new false);
    [exact w_new_reach | discriminate].
Defined.

(** * The hypotheses of the further properties hold of the concrete feature *)

Lemma w_hidden_off_layer :
  forall m, gmapFeature_ (this w_hidden) = Some m -> m ∉ data_layer (gm w_hidden).
Proof.
  intros m Hm. vm_compute in Hm. injection Hm as <-.
  assert (E : data_layer (gm w_hidden) = ∅) by (vm_compute; reflexivity).
  rewrite E. apply not_elem_of_empty.
Qed.

Lemma w_hidden_off_map :
  forall o, label_ (this w_hidden) = Some o \/ marker_ (this w_hidden) = Some o ->
            o ∉ on_map (gm w_hidden).
Proof.
  intros o _.
  assert (E : on_map (gm w_hidden) = ∅) by (vm_compute; reflexivity).
  rewrite E. apply not_elem_of_empty.
Qed.

Lemma X1_witness :
  feat_geometry (ol w_hidden_new) = Obj 0 /\
  visible_ (this w_hidden_new) = false /\
  (result (activate w_hidden_new) = Ok tt /\
  existsb shows_or_hides (emitted (activate w_hidden_new)) = false /\
  data_layer (gm (final (activate w_hidden_new))) = data_layer (gm w_hidden_new) /\
  on_map (gm (final (activate w_hidden_new))) = on_map (gm w_hidden_new) /\
  gmapFeature_ (this (final (activate w_hidden_new))) = Some (next_id w_hidden_new) /\
  result (setVisible true (final (activate w_hidden_new))) = Ok tt /\
  next_id w_hidden_new ∈ data_layer (gm (final (setVisible true (final (activate w_hidden_new))))) /\
  (forall o, label_ (this (final (activate w_hidden_new))) = Some o \/
             marker_ (this (final (activate w_hidden_new))) = Some o ->
     o ∈ on_map (gm (final (setVisible true (final (activate w_hidden_new))))))).
Proof.
  split; [reflexivity|]. split; [reflexivity|].
  apply (X1_activation_of_hidden_herald w_hidden_new 0); [reflexivity | reflexivity].
Defined.

Lemma X2_witness :
  Reach true w_active /\
  (exists (k kr : Key) (g : GeomId),
    feat_geometry (ol w_active) = Obj g /\
    geometryChangeKey_ (this w_active) = Some k /\
    k <> kr /\
    (forall s, In s (subs (ol w_active)) <->
       s = mkSub k (TGeometry g) HGeometryChange \/
       s = mkSub kr TFeature HGeometryReplace) /\
    length (subs (ol w_active)) = 2 /\
    listenerKeys (this w_active) = map sub_key (subs (ol w_active))).
Proof.
  split; [exact w_active_reach|].
  apply (X2_listeners_of_active_herald w_active). exact w_active_reach.
Defined.

Lemma X3_witness :
  Reach true w_active /\
  feat_geometry (ol w_active) = Obj 0 /\
  (exists (m : MirrorId) (w' : World) (tr : list Call),
    gmapFeature_ (this w_active) = Some m /\
    Geometry_setShape 0 (2, 2)%Z w_active = mkOut (Ok tt) w' tr /\
    mirror_geometry (gm w') !! m = Some (createFeatureGeometry (2, 2)%Z) /\
    (forall o, label_ (this w_active) = Some o \/ marker_ (this w_active) = Some o ->
       exists ov0,
         overlays (gm w_active) !! o = Some ov0 /\
         overlays (gm w') !! o =
           Some (mkOverlay (ov_kind ov0) (createLatLng (getCenterOf (2, 2)%Z)) (ov_index ov0))) /\
    this w' = this w_active /\
    data_layer (gm w') = data_layer (gm w_active) /\
    on_map (gm w') = on_map (gm w_active)).
Proof.
  split; [exact w_active_reach|]. split; [vm_compute; reflexivity|].
  apply (X3_mutation_of_current_geometry w_active 0 (2, 2)%Z); [exact w_active_reach | vm_compute; reflexivity].
Defined.

Lemma X4_witness :
  Reach true w_active /\
  feat_geometry (ol w_active) = Obj 0 /\
  9 <> 0 /\
  (Geometry_setShape 9 (2, 2)%Z w_active = mkOut (Ok tt) (reshape 9 (2, 2)%Z w_active) [] /\
  exists (w1 : World) (tr : list Call),
    Feature_setGeometry (Obj 9) w_active = mkOut (Ok tt) w1 tr /\
    Geometry_setShape 0 (2, 2)%Z w1 = mkOut (Ok tt) (reshape 0 (2, 2)%Z w1) []).
Proof.
  split; [exact w_active_reach|]. split; [vm_compute; reflexivity|]. split; [discriminate|].
  apply (X4_mutation_of_detached_geometry w_active 0 9 (2, 2)%Z); [exact w_active_reach | vm_compute; reflexivity | discriminate].
Defined.

Lemma X6_witness :
  Reach true w_active /\
  (exists (k kr : Key) (w' : World),
    geometryChangeKey_ (this w_active) = Some k /\
    Feature_setGeometry Undefined w_active = mkOut (Throw TypeError) w' [] /\
    listenerKeys (this w') = [kr] /\
    subs (ol w') = [mkSub kr TFeature HGeometryReplace] /\
    geometryChangeKey_ (this w') = Some k /\
    k <> kr /\
    gm w' = gm w_active /\
    forall g shp, Geometry_setShape g shp w' = mkOut (Ok tt) (reshape g shp w') []).
Proof.
  split; [exact w_active_reach|].
  apply (X6_replace_by_undefined w_active). exact w_active_reach.
Defined.

Lemma X7_witness :
  Reach true w_active /\
  (exists (m : MirrorId) (kr : Key) (w2 : World) (tr : list Call),
    gmapFeature_ (this w_active) = Some m /\
    Feature_setGeometry (Obj 9) (final (Feature_setGeometry Undefined w_active))
      = mkOut (Ok tt) w2 tr /\
    mirror_geometry (gm w2) !! m = Some (createFeatureGeometry (shapes (ol w_active) 9)) /\
    geometryChangeKey_ (this w2) = Some (next_id w_active) /\
    listenerKeys (this w2) = [next_id w_active] /\
    subs (ol w2) = [mkSub kr TFeature HGeometryReplace;
                    mkSub (next_id w_active) (TGeometry 9) HGeometryChange] /\
    kr <> next_id w_active).
Proof.
  split; [exact w_active_reach|].
  apply (X7_replace_after_failed_replace w_active 9). exact w_active_reach.
Defined.

Lemma X8_witness :
  Reach true w_active /\
  (exists (kr : Key) (w3 : World) (tr : list Call),
    deactivate (final (Feature_setGeometry (Obj 9) (final (Feature_setGeometry Undefined w_active))))
      = mkOut (Ok tt) w3 tr /\
    listenerKeys (this w3) = [] /\
    gmapFeature_ (this w3) = None /\
    subs (ol w3) = [mkSub kr TFeature HGeometryReplace] /\
    forall g', result (Feature_setGeometry (Obj g') w3) = Throw TypeError).
Proof.
  split; [exact w_active_reach|].
  apply (X8_listener_left_after_deactivate w_active 9). exact w_active_reach.
Defined.

Lemma X11_witness :
  feat_geometry (ol w_new) = Obj 0 /\
  (let p := createLatLng (getCenterOf (shapes (ol w_new) 0)) in
  let w1 := final (activate w_new) in
  let tr := emitted (activate w_new) in
  (forall o img q z, In (CreateMapIcon o img q z) tr ->
     q = p /\
     marker_ (this w1) = Some o /\
     overlays (gm w1) !! o = Some (mkOverlay (MapIcon img) p z) /\
     (In (OverlaySetMap o true) tr <-> visible_ (this w_new) = true)) /\
  (forall o t q z, In (CreateLabel o t q z) tr ->
     q = p /\
     label_ (this w1) = Some o /\
     overlays (gm w1) !! o = Some (mkOverlay (MapLabel t) p z) /\
     (In (OverlaySetMap o true) tr <-> visible_ (this w_new) = true))).
Proof.
  split; [reflexivity|].
  apply (X11_overlays_placed_at_center w_new 0). reflexivity.
Defined.

Lemma X12_witness :
  feat_geometry (ol w_new) = Obj 0 /\
  ((forall f s, In (DataOverrideStyle f s) (emitted (activate w_new)) <->
     f = Some (next_id w_new) /\
     createStyle (feat_style (ol w_new)) (mapIconOptions_ (this w_new)) (index_ (this w_new)) = Some s) /\
  (forall x, x <> next_id w_new ->
     mirror_style (gm (final (activate w_new))) !! x = mirror_style (gm w_new) !! x)).
Proof.
  split; [reflexivity|].
  apply (X12_style_override w_new 0). reflexivity.
Defined.

Lemma X14_witness :
  feat_geometry (ol w_new) = Obj 0 /\
  visible_ (this w_new) = true /\
  (exists (m1 m2 : MirrorId) (k kr : Key) (w1 w2 w3 : World) (tr1 tr2 tr3 : list Call),
    activate w_new = mkOut (Ok tt) w1 tr1 /\
    activate w1 = mkOut (Ok tt) w2 tr2 /\
    deactivate w2 = mkOut (Ok tt) w3 tr3 /\
    gmapFeature_ (this w1) = Some m1 /\
    gmapFeature_ (this w2) = Some m2 /\
    m1 <> m2 /\
    ~ In (DataRemove (Some m1)) tr3 /\
    m1 ∈ data_layer (gm w3) /\
    listenerKeys (this w1) = listenerKeys (this w_new) ++ [k; kr] /\
    listenerKeys (this w2) = listenerKeys (this w1) ++ [k; kr] /\
    subs (ol w2) = subs (ol w1)).
Proof.
  split; [reflexivity|]. split; [reflexivity|].
  apply (X14_second_activate_leaks_first_mirror w_new 0); [reflexivity | reflexivity].
Defined.

Lemma X15_witness :
  visible_ (this w_hidden) = false /\
  (forall m, gmapFeature_ (this w_hidden) = Some m -> m ∉ data_layer (gm w_hidden)) /\
  (forall o, label_ (this w_hidden) = Some o \/ marker_ (this w_hidden) = Some o -> o ∉ on_map (gm w_hidden)) /\
  (exists (w1 : World) (tr1 tr2 : list Call),
    setVisible true w_hidden = mkOut (Ok tt) w1 tr1 /\
    visible_ (this w1) = true /\
    setVisible false w1 = mkOut (Ok tt) w_hidden tr2 /\
    existsb is_creation (tr1 ++ tr2) = false).
Proof.
  split; [vm_compute; reflexivity|]. split; [exact w_hidden_off_layer|]. split; [exact w_hidden_off_map|].
  apply (X15_show_then_hide_roundtrip w_hidden); [vm_compute; reflexivity | exact w_hidden_off_layer | exact w_hidden_off_map].
Defined.

Lemma X16_witness :
  Reach false w_new /\
  ((forall og, Feature_setGeometry og w_new =
              mkOut (Ok tt) (mkWorld (this w_new) (set_feat_geometry og (ol w_new)) (gm w_new) (next_id w_new)) []) /\
  (forall g shp, Geometry_setShape g shp w_new = mkOut (Ok tt) (reshape g shp w_new) [] /\
                 this (reshape g shp w_new) = this w_new /\ gm (reshape g shp w_new) = gm w_new)).
Proof.
  split; [exact w_new_reach|].
  apply (X16_inactive_herald_is_deaf w_new). exact w_new_reach.
Defined.

Lemma X17_witness :
  this w_new = Feature_new (mkFeatureOptions 7 (mkMapIconOptions (Some true)) None) /\
  opt_visible (mkFeatureOptions 7 (mkMapIconOptions (Some true)) None) <> Some false /\
  feat_geometry (ol w_new) = Obj 0 /\
  (exists (w1 : World) (tr : list Call),
    activate w_new = mkOut (Ok tt) w1 tr /\
    visible_ (this w1) = true /\
    gmapFeature_ (this w1) = Some (next_id w_new) /\
    In (DataAdd (Some (next_id w_new))) tr /\
    next_id w_new ∈ data_layer (gm w1) /\
    (forall o, label_ (this w1) = Some o \/ marker_ (this w1) = Some o ->
       In (OverlaySetMap o true) tr /\ o ∈ on_map (gm w1))).
Proof.
  split; [reflexivity|]. split; [discriminate|]. split; [reflexivity|].
  apply (X17_activation_of_new_visible_herald w_new (mkFeatureOptions 7 (mkMapIconOptions (Some true)) None) 0); [reflexivity | discriminate | reflexivity].
Defined.
